(** * ghostghostghost: a line-oriented arithmetic compiler (src/index.js)

    A shallow embedding of [src/index.js] and the properties its
    specification states about it.

    Conventions of the embedding.
    - A JavaScript string is a [string]; each [ascii] stands for one code
      unit below 256.  [undefined] in a position that otherwise holds a
      string or an object is [None].
    - A JavaScript array is a [list] in index order: [push] appends at the
      end and [pop] removes the last element.
    - The objects built by [LangNode] and [CompilerError] hold closures over
      the arguments of their factory; they are represented by the factory
      call itself (a constructor of [ParseResult]) and their fields [type],
      [isNode], [value] and [print] are functions on that type.
    - The only writable state that outlives a call is the [lastIndex]
      property of the two module-level [RegExp] objects; it is threaded
      through every function that can reach [RegExp.prototype.test].
    - Number arithmetic (IEEE-754 doubles, [Number(string)] and the four
      binary operators on arbitrary values) is an interface, [JSArith]. *)

From Stdlib Require Import List String Ascii Bool Arith NArith Lia.
From Stdlib Require Import DecimalString.
Import ListNotations.
Open Scope string_scope.
Open Scope list_scope.
Open Scope nat_scope.

(** ** Arrays *)

Module JSArray.

(** [Array.prototype.pop]: the last element and the array without it;
    [None] is the [undefined] an empty array gives (the array is left as
    it is). *)
Fixpoint pop {A : Type} (l : list A) : option (A * list A) :=
  match l with
  | [] => None
  | x :: l' =>
      match pop l' with
      | None => Some (x, [])
      | Some (y, r) => Some (y, x :: r)
      end
  end.

(** [Array.prototype.push] of one element. *)
Definition push {A : Type} (l : list A) (x : A) : list A := l ++ [x].

End JSArray.

(** ** Regular expressions *)

Module JSRegExp.

(** The pattern syntax the three literals of the source use.  Capture
    groups without back-references do not change what matches, so the
    parentheses of the source are the nesting of the terms. *)
Inductive regex : Type :=
| Empty                              (* matches the empty string *)
| Chr (c : ascii)                    (* a literal or escaped character *)
| Range (lo hi : ascii)              (* [lo-hi] *)
| WhiteSpace                         (* \s *)
| Alt (r1 r2 : regex)                (* r1|r2 *)
| Seq (r1 r2 : regex)                (* r1r2 *)
| Star (r : regex).                  (* r*, greedy *)

(** r+ *)
Definition Plus (r : regex) : regex := Seq r (Star r).
(** r{0,1} *)
Definition Opt (r : regex) : regex := Alt r Empty.

Definition in_range (lo hi c : ascii) : bool :=
  (nat_of_ascii lo <=? nat_of_ascii c) && (nat_of_ascii c <=? nat_of_ascii hi).

(** The code units below 256 that [\s] and [String.prototype.trim] treat
    as white space: TAB, LF, VT, FF, CR, SPACE and NBSP. *)
Definition is_space (c : ascii) : bool :=
  let n := nat_of_ascii c in
  ((9 <=? n) && (n <=? 13)) || (n =? 32) || (n =? 160).

(** The backtracking matcher: [bt r s k] tries the ways [r] can match a
    prefix of [s] in priority order (left alternative first, greedy
    repetition) and gives the first one the continuation [k] accepts on
    the rest of the string.  An iteration of a repetition that consumes
    nothing is refused, as in the language definition. *)
Fixpoint bt {A : Type} (r : regex) (s : string) (k : string -> option A)
  {struct r} : option A :=
  match r with
  | Empty => k s
  | Chr c =>
      match s with
      | String c' s' => if Ascii.eqb c c' then k s' else None
      | EmptyString => None
      end
  | Range lo hi =>
      match s with
      | String c' s' => if in_range lo hi c' then k s' else None
      | EmptyString => None
      end
  | WhiteSpace =>
      match s with
      | String c' s' => if is_space c' then k s' else None
      | EmptyString => None
      end
  | Alt r1 r2 =>
      match bt r1 s k with
      | Some x => Some x
      | None => bt r2 s k
      end
  | Seq r1 r2 => bt r1 s (fun s' => bt r2 s' k)
  | Star r1 =>
      (fix star (n : nat) (s : string) {struct n} : option A :=
         match n with
         | O => k s
         | S n' =>
             match bt r1 s (fun s' =>
                              if String.length s' <? String.length s
                              then star n' s' else None) with
             | Some x => Some x
             | None => k s
             end
         end) (String.length s) s
  end.

(** The match of [r] at the start of [s], as the rest of the string after
    it. *)
Definition match_at (r : regex) (s : string) : option string :=
  bt r s (fun rest => Some rest).

(** The whole of [s] matches [r]. *)
Definition full_match (r : regex) (s : string) : bool :=
  match bt r s (fun rest => if String.eqb rest "" then Some tt else None) with
  | Some _ => true
  | None => false
  end.

(** A [RegExp] object: its pattern and the two flags that make [exec]
    read and write [lastIndex]. *)
Record RegExp : Type := mkRegExp {
  source : regex;
  global : bool;
  sticky : bool
}.

(** [new RegExp(/.../)], no flags. *)
Definition new_RegExp (r : regex) : RegExp :=
  {| source := r; global := false; sticky := false |}.

(** The search loop of [RegExpBuiltinExec]: [s] is the input from index
    [i] on; the result is the end index of the first match found. *)
Fixpoint exec_from (r : regex) (sticky : bool) (s : string) (i : nat)
  : option nat :=
  match match_at r s with
  | Some rest => Some (i + (String.length s - String.length rest))
  | None =>
      if sticky then None
      else match s with
           | EmptyString => None
           | String _ s' => exec_from r sticky s' (S i)
           end
  end.

Fixpoint drop (n : nat) (s : string) : string :=
  match n, s with
  | O, _ => s
  | S n', String _ s' => drop n' s'
  | S _, EmptyString => EmptyString
  end.

(** [R.test(S)] for an object whose [lastIndex] is [lastIndex]: whether
    there is a match, and the [lastIndex] the call leaves. *)
Definition test (R : RegExp) (lastIndex : nat) (S : string) : bool * nat :=
  let uses_last := global R || sticky R in
  let start := if uses_last then lastIndex else 0 in
  if String.length S <? start then (false, if uses_last then 0 else lastIndex)
  else
    match exec_from (source R) (sticky R) (drop start S) start with
    | Some e => (true, if uses_last then e else lastIndex)
    | None => (false, if uses_last then 0 else lastIndex)
    end.

(** [String.prototype.split] with a regular expression as separator.
    [skip] counts the characters of the separator just matched that are
    still to be passed, [cur] is the piece since the end of the last
    separator, in reverse. *)
Fixpoint rev_string (acc s : string) : string :=
  match s with
  | EmptyString => acc
  | String c s' => rev_string (String c acc) s'
  end.

Fixpoint split_loop (r : regex) (skip : nat) (cur : string) (s : string)
  : list string :=
  match s with
  | EmptyString => [rev_string "" cur]
  | String c s' =>
      match skip with
      | S skip' => split_loop r skip' cur s'
      | O =>
          match match_at r s with
          | None => split_loop r 0 (String c cur) s'
          | Some rest =>
              match String.length s - String.length rest with
              | O =>
                  (* an empty match: the position advances; a piece that
                     is not empty is closed before it does *)
                  match cur with
                  | EmptyString => split_loop r 0 (String c "") s'
                  | _ => rev_string "" cur :: split_loop r 0 (String c "") s'
                  end
              | S m => rev_string "" cur :: split_loop r m "" s'
              end
          end
      end
  end.

Definition split (r : regex) (s : string) : list string :=
  match s with
  | EmptyString =>
      match match_at r "" with
      | Some _ => []
      | None => [""]
      end
  | _ => split_loop r 0 "" s
  end.

End JSRegExp.
Import JSRegExp.

(** ** Strings *)

Module JSString.

(** [String.prototype.split] with a one-character string as separator;
    [cur] is the piece since the last separator, in reverse. *)
Fixpoint split_on (sep : ascii) (cur : string) (s : string) : list string :=
  match s with
  | EmptyString => [rev_string "" cur]
  | String c s' =>
      if Ascii.eqb c sep then rev_string "" cur :: split_on sep "" s'
      else split_on sep (String c cur) s'
  end.

Definition split_char (sep : ascii) (s : string) : list string :=
  split_on sep "" s.

Fixpoint trimStart (s : string) : string :=
  match s with
  | EmptyString => EmptyString
  | String c s' => if is_space c then trimStart s' else s
  end.

Fixpoint trimEnd (s : string) : string :=
  match s with
  | EmptyString => EmptyString
  | String c s' =>
      match trimEnd s' with
      | EmptyString => if is_space c then EmptyString else String c EmptyString
      | t => String c t
      end
  end.

(** [String.prototype.trim] *)
Definition trim (s : string) : string := trimEnd (trimStart s).

(** The string a template literal puts for a number that is a natural
    number: its decimal digits. *)
Definition of_nat (n : nat) : string := NilEmpty.string_of_uint (Nat.to_uint n).

(** The string a template literal puts for a value that is a string or
    [undefined]. *)
Definition of_string_or_undefined (v : option string) : string :=
  match v with
  | Some s => s
  | None => "undefined"
  end.

Fixpoint all_space (s : string) : bool :=
  match s with
  | EmptyString => true
  | String c s' => is_space c && all_space s'
  end.

End JSString.
Import JSString.

(** ** The module-level state and the effects of a call *)

(** [NUMBER_REGEX]: an alternative of "a digit from 1 to 9, then digits" and
    "a digit", followed by at most one group of "a dot, then one digit or
    more"; the literal has no anchor and no flag. *)
Definition NUMBER_REGEX : RegExp :=
  new_RegExp
    (Seq (Alt (Seq (Range "1" "9") (Star (Range "0" "9"))) (Range "0" "9"))
         (Opt (Seq (Chr ".") (Plus (Range "0" "9"))))).

(** [OPERATION_REGEX]: one of the four characters, escaped where the syntax
    asks for it; the literal has no anchor and no flag. *)
Definition OPERATION_REGEX : RegExp :=
  new_RegExp (Alt (Chr "+") (Alt (Chr "-") (Alt (Chr "*") (Chr "/")))).

Module COMPILER_ERRORS.
Definition INCOMPLETE_EXPRESSION : string := "Incomplete expression provided".
Definition INVALID_TOKEN : string := "Invalid token provided".
Definition INVALID_STACK : string := "Invalid stack element".
Definition MULTIPLE_EXPRESSIONS : string := "Multiple expressions on a single line".
End COMPILER_ERRORS.

(** The writable properties of the two [RegExp] objects. *)
Record Heap : Type := mkHeap {
  NUMBER_REGEX_lastIndex : nat;
  OPERATION_REGEX_lastIndex : nat
}.

(** The heap after the module's two [const] declarations. *)
Definition initial_heap : Heap :=
  {| NUMBER_REGEX_lastIndex := 0; OPERATION_REGEX_lastIndex := 0 |}.

Inductive JSError : Type :=
| ReferenceError (name : string)       (* name is not defined *)
| TypeError (message : string).

(** How a call ends: with a value, with an exception, or not at all (the
    bound on the iterations of a loop was reached). *)
Inductive Completion (A : Type) : Type :=
| Normal (a : A)
| Throw (e : JSError)
| Diverges.
Arguments Normal {A} a.
Arguments Throw {A} e.
Arguments Diverges {A}.

Definition M (A : Type) : Type := Heap -> Completion A * Heap.

Definition ret {A : Type} (a : A) : M A := fun h => (Normal a, h).

Definition throw {A : Type} (e : JSError) : M A := fun h => (Throw e, h).

Definition diverge {A : Type} : M A := fun h => (Diverges, h).

Definition bind {A B : Type} (m : M A) (f : A -> M B) : M B :=
  fun h =>
    match m h with
    | (Normal a, h') => f a h'
    | (Throw e, h') => (Throw e, h')
    | (Diverges, h') => (Diverges, h')
    end.

Definition lift {A : Type} (c : Completion A) : M A := fun h => (c, h).

Declare Scope js_scope.
Delimit Scope js_scope with js.
Notation "x <- m ;; k" := (bind m (fun x => k))
  (at level 100, m at next level, right associativity) : js_scope.
Open Scope js_scope.

(** [NUMBER_REGEX.test(s)] *)
Definition NUMBER_REGEX_test (s : string) : M bool :=
  fun h =>
    let (b, i) := test NUMBER_REGEX (NUMBER_REGEX_lastIndex h) s in
    (Normal b, {| NUMBER_REGEX_lastIndex := i;
                  OPERATION_REGEX_lastIndex := OPERATION_REGEX_lastIndex h |}).

(** [OPERATION_REGEX.test(s)] *)
Definition OPERATION_REGEX_test (s : string) : M bool :=
  fun h =>
    let (b, i) := test OPERATION_REGEX (OPERATION_REGEX_lastIndex h) s in
    (Normal b, {| NUMBER_REGEX_lastIndex := NUMBER_REGEX_lastIndex h;
                  OPERATION_REGEX_lastIndex := i |}).

(** ** Nodes and diagnostics *)

(** What [parseExpression] builds: the objects of [LangNode] (through
    [VoidNode], [NumberNode] and [BinaryExpressionNode]) and those of
    [CompilerError]. *)
Inductive ParseResult : Type :=
| VoidNode
| NumberNode (number : string)
| BinaryExpressionNode (operation : string) (arg1 arg2 : ParseResult)
| CompilerError (error expected : string) (token : option string)
                (lineNumber : nat).

(** The [type] property. *)
Definition type (o : ParseResult) : string :=
  match o with
  | VoidNode => "VOID"
  | NumberNode _ => "NUMBER"
  | BinaryExpressionNode _ _ _ => "BINARY_EXPRESSION"
  | CompilerError _ _ _ _ => "ERROR"
  end.

(** The [isNode] property. *)
Definition isNode (o : ParseResult) : bool :=
  match o with
  | CompilerError _ _ _ _ => false
  | _ => true
  end.

(** [generateError] of [CompilerError] *)
Definition generateError (error expected : string) (token : option string)
  (lineNumber : nat) : string :=
  ("[COMPILATION ERROR]: " ++ error ++ " => expected " ++ expected
     ++ ", got '" ++ of_string_or_undefined token ++ "' on line "
     ++ of_nat lineNumber)%string.

(** The [print] property. *)
Fixpoint print (o : ParseResult) : string :=
  match o with
  | VoidNode => "[ VOID VOID ]"
  | NumberNode number => ("[ NUMBER " ++ number ++ " ]")%string
  | BinaryExpressionNode operation arg1 arg2 =>
      ("[ BINARY_EXPRESSION " ++ operation ++ ", " ++ print arg1 ++ ", "
         ++ print arg2 ++ " ]")%string
  | CompilerError error expected token lineNumber =>
      generateError error expected token lineNumber
  end.

(** The values [value()] can give. *)
Inductive JSValue (num : Type) : Type :=
| JSNull
| JSUndefined
| JSNumber (x : num)
| JSString (s : string).
Arguments JSNull {num}.
Arguments JSUndefined {num}.
Arguments JSNumber {num} x.
Arguments JSString {num} s.

(** The numbers of the language and the operations of the source on them:
    [Number(s)] for a string [s], and the binary operators [+], [-], [*]
    and [/] on two values. *)
Class JSArith : Type := {
  num : Type;
  Number : string -> num;
  js_add : JSValue num -> JSValue num -> JSValue num;
  js_sub : JSValue num -> JSValue num -> JSValue num;
  js_mul : JSValue num -> JSValue num -> JSValue num;
  js_div : JSValue num -> JSValue num -> JSValue num
}.

(** The [value] property, called. *)
Fixpoint value `{JSArith} (o : ParseResult) : JSValue num :=
  match o with
  | VoidNode => JSNull
  | NumberNode number => JSNumber (Number number)
  | BinaryExpressionNode operation arg1 arg2 =>
      if String.eqb operation "+" then js_add (value arg1) (value arg2)
      else if String.eqb operation "-" then js_sub (value arg1) (value arg2)
      else if String.eqb operation "*" then js_mul (value arg1) (value arg2)
      else if String.eqb operation "/" then js_div (value arg1) (value arg2)
      else JSUndefined
  | CompilerError error expected token lineNumber =>
      JSString (generateError error expected token lineNumber)
  end.

(** ** The lexer and the parser *)

(** [const lexer = (line) => line.split(/\s+/)] *)
Definition lexer (line : string) : list string := split (Plus WhiteSpace) line.

(** How one iteration of the loop of [parseExpression] ends: at the end of
    its body, with the two arrays as it leaves them, or at a [return]. *)
Inductive LoopStep : Type :=
| Continue (tokens : list string) (stack : list ParseResult)
| Return (result : ParseResult).

(** The body of the loop, after [const token = tokens.pop()]: [tokens] is
    the array without [token]. *)
Definition loop_body (token : string) (tokens : list string)
  (stack : list ParseResult) (lineNumber : nat) : M LoopStep :=
  match JSArray.pop stack with
  | None =>
      (* !stack.length *)
      is_number <- NUMBER_REGEX_test token ;;
      if is_number : bool then
        ret (Continue tokens (JSArray.push stack (NumberNode token)))
      else
        ret (Return (CompilerError COMPILER_ERRORS.INVALID_TOKEN
                       "a number literal" (Some token) lineNumber))
  | Some (prevNode, stack) =>
      if negb (isNode prevNode) then
        (* return lastToken: no binding of that name is in scope *)
        throw (ReferenceError "lastToken")
      else if String.eqb (type prevNode) "NUMBER"
              || String.eqb (type prevNode) "BINARY_EXPRESSION" then
        is_operation <- OPERATION_REGEX_test token ;;
        if negb is_operation then
          ret (Return (CompilerError COMPILER_ERRORS.INVALID_TOKEN
                         "an operation token" (Some token) lineNumber))
        else
          match JSArray.pop tokens with
          | None =>
              (* nextToken is undefined *)
              ret (Return (CompilerError COMPILER_ERRORS.INCOMPLETE_EXPRESSION
                             "a number literal" None lineNumber))
          | Some (nextToken, tokens) =>
              if String.eqb nextToken "" then
                (* the other falsy string *)
                ret (Return (CompilerError
                               COMPILER_ERRORS.INCOMPLETE_EXPRESSION
                               "a number literal" (Some nextToken) lineNumber))
              else
                is_number <- NUMBER_REGEX_test nextToken ;;
                if negb is_number then
                  ret (Return (CompilerError COMPILER_ERRORS.INVALID_TOKEN
                                 "a number literal" (Some nextToken)
                                 lineNumber))
                else
                  ret (Continue tokens
                         (JSArray.push stack
                            (BinaryExpressionNode token prevNode
                               (NumberNode nextToken))))
          end
      else
        ret (Return (CompilerError COMPILER_ERRORS.INVALID_STACK
                       "a number or an operation" (Some (type prevNode))
                       lineNumber))
  end.

(** How the loop ends: at a [return] of its body, or because [tokens] is
    empty, with the stack as it is then. *)
Inductive LoopExit : Type :=
| Returned (result : ParseResult)
| Exited (stack : list ParseResult).

(** [while (!!tokens.length) { const token = tokens.pop() ... }], at most
    [fuel] iterations. *)
Fixpoint while_loop (fuel : nat) (tokens : list string)
  (stack : list ParseResult) (lineNumber : nat) : M LoopExit :=
  match JSArray.pop tokens with
  | None => ret (Exited stack)
  | Some (token, tokens) =>
      match fuel with
      | O => diverge
      | S fuel =>
          step <- loop_body token tokens stack lineNumber ;;
          match step with
          | Continue tokens stack => while_loop fuel tokens stack lineNumber
          | Return result => ret (Returned result)
          end
      end
  end.

(** [Array.prototype.toString] on an array of objects *)
Definition stack_toString (stack : list ParseResult) : string :=
  String.concat "," (map (fun _ => "[object Object]") stack).

(** [parseExpression]; the result is [None] where the source returns
    [undefined]. *)
Definition parseExpression (tokens : list string) (lineNumber : nat)
  : M (option ParseResult) :=
  if (List.length tokens =? 0)
     || ((List.length tokens =? 1)
         && match nth_error tokens 0 with
            | Some t => String.eqb t ""
            | None => false
            end)
  then ret (Some VoidNode)
  else
    exit <- while_loop (List.length tokens) tokens [] lineNumber ;;
    match exit with
    | Returned result => ret (Some result)
    | Exited stack =>
        if 1 <? List.length stack then
          ret (Some (CompilerError COMPILER_ERRORS.MULTIPLE_EXPRESSIONS
                       "a single token" (Some (stack_toString stack))
                       lineNumber))
        else
          ret (option_map fst (JSArray.pop stack))
    end.

(** ** The driver *)

(** [Array.prototype.map] with a callback that takes the element and its
    index and runs in [M]; [index] is the index of the head of [l]. *)
Fixpoint map_from {A B : Type} (f : A -> nat -> M B) (index : nat) (l : list A)
  : M (list B) :=
  match l with
  | [] => ret []
  | x :: l' =>
      y <- f x index ;;
      ys <- map_from f (S index) l' ;;
      ret (y :: ys)
  end.

(** The callback of [compile]. *)
Definition compile_line (line : string) (index : nat) : M (option ParseResult) :=
  parseExpression (lexer (trim line)) (index + 1).

(** [compile] *)
Definition compile (file : string) : M (list (option ParseResult)) :=
  map_from compile_line 0 (split_char "010" file).

(** [node.value()] for an element of the array [compile] gives. *)
Definition call_value `{JSArith} (node : option ParseResult)
  : Completion (JSValue num) :=
  match node with
  | Some o => Normal (value o)
  | None => Throw (TypeError "Cannot read properties of undefined")
  end.

(** [execute] *)
Fixpoint execute `{JSArith} (stack : list (option ParseResult))
  : Completion (list (JSValue num)) :=
  match stack with
  | [] => Normal []
  | node :: stack' =>
      match call_value node with
      | Normal v =>
          match execute stack' with
          | Normal vs => Normal (v :: vs)
          | Throw e => Throw e
          | Diverges => Diverges
          end
      | Throw e => Throw e
      | Diverges => Diverges
      end
  end.

(** [run], without the printing: the values [console.log] is given, in
    order. *)
Definition run `{JSArith} (file : string) : M (list (JSValue num)) :=
  stack <- compile file ;;
  lift (execute stack).

(** ** The words of the specification *)

(** The numeral grammar of the specification: the whole token is an integer
    without a leading zero (or a single digit), then at most one fraction.
    It is the pattern of [NUMBER_REGEX], anchored at both ends. *)
Definition numeral_grammar (token : string) : bool :=
  full_match (source NUMBER_REGEX) token.

(** The four operators of the specification. *)
Inductive operator : Type := OpAdd | OpSub | OpMul | OpDiv.

Definition symbol (o : operator) : string :=
  match o with
  | OpAdd => "+"
  | OpSub => "-"
  | OpMul => "*"
  | OpDiv => "/"
  end.

(** The operator grammar of the specification: the token is exactly one of
    the four symbols. *)
Definition operator_grammar (token : string) : bool :=
  String.eqb token "+" || String.eqb token "-" || String.eqb token "*"
  || String.eqb token "/".

(** The arithmetic operation an operator stands for. *)
Definition arith `{JSArith} (o : operator)
  : JSValue num -> JSValue num -> JSValue num :=
  match o with
  | OpAdd => js_add
  | OpSub => js_sub
  | OpMul => js_mul
  | OpDiv => js_div
  end.

(** A fragment the specification allows on the stack. *)
Definition number_or_binary (o : ParseResult) : bool :=
  String.eqb (type o) "NUMBER" || String.eqb (type o) "BINARY_EXPRESSION".

(** ** Notions the statements use *)

(** The state of the loop of [parseExpression] after [k] full iterations
    from [tokens], [stack] and [h]: the two arrays and the heap at the end
    of iteration [k], which is the start of the next one.  [None] when the
    loop has ended before. *)
Fixpoint loop_state (k : nat) (tokens : list string)
  (stack : list ParseResult) (lineNumber : nat) (h : Heap)
  : option (list string * list ParseResult * Heap) :=
  match k with
  | O => Some (tokens, stack, h)
  | S k' =>
      match JSArray.pop tokens with
      | None => None
      | Some (token, tokens') =>
          match loop_body token tokens' stack lineNumber h with
          | (Normal (Continue tokens'' stack''), h') =>
              loop_state k' tokens'' stack'' lineNumber h'
          | _ => None
          end
      end
  end.

(** The completion is a diagnostic whose first field is [error]. *)
Definition is_diagnostic (error : string)
  (c : Completion (option ParseResult)) : bool :=
  match c with
  | Normal (Some (CompilerError e _ _ _)) => String.eqb e error
  | _ => false
  end.

(** What the evaluated line [index] of a document is, when its parse ends
    with an object. *)
Definition line_value `{JSArith} (h : Heap) (indexed_line : nat * string)
  : option (JSValue num) :=
  match fst (compile_line (snd indexed_line) (fst indexed_line) h) with
  | Normal (Some o) => Some (value o)
  | _ => None
  end.

(** The characters a search with each of the two patterns looks for. *)
Definition is_digit (c : ascii) : bool := in_range "0" "9" c.

Definition is_operation_char (c : ascii) : bool :=
  Ascii.eqb "+" c || Ascii.eqb "-" c || Ascii.eqb "*" c || Ascii.eqb "/" c.

Fixpoint has_char (p : ascii -> bool) (s : string) : bool :=
  match s with
  | EmptyString => false
  | String c s' => p c || has_char p s'
  end.

(** The invariant of the loop: at most one fragment, a number or a binary
    expression. *)
Definition stack_invariant (stack : list ParseResult) : Prop :=
  List.length stack <= 1 /\ Forall (fun o => number_or_binary o = true) stack.

(** The diagnostics the loop can return. *)
Definition scan_diagnostic (r : ParseResult) : bool :=
  match r with
  | CompilerError e _ _ _ =>
      String.eqb e COMPILER_ERRORS.INVALID_TOKEN
      || String.eqb e COMPILER_ERRORS.INCOMPLETE_EXPRESSION
  | _ => false
  end.

(** The test at the head of [parseExpression]. *)
Definition no_tokens (tokens : list string) : bool :=
  (List.length tokens =? 0)
  || ((List.length tokens =? 1)
      && match nth_error tokens 0 with
         | Some t => String.eqb t ""
         | None => false
         end).

(** A computation that gives the same completion from every heap and
    leaves the heap as it found it. *)
Definition heap_independent {A : Type} (m : M A) : Prop :=
  exists c, forall h, m h = (c, h).

(** The number of pieces [split] gives for a one-character separator: one
    more than the occurrences of the separator. *)
Fixpoint occurrences (sep : ascii) (s : string) : nat :=
  match s with
  | EmptyString => 0
  | String c s' => (if Ascii.eqb c sep then 1 else 0) + occurrences sep s'
  end.

(** ** The scan, as a recursion *)

(** What the loop of [parseExpression] computes from a stack that holds the
    one fragment [acc], when [rtokens] are the tokens still to be taken, in
    the order [pop] gives them (the last of the line first): each round
    takes an operator and the numeral to its left. *)
Fixpoint scan (acc : ParseResult) (rtokens : list string) (lineNumber : nat)
  : ParseResult :=
  match rtokens with
  | [] => acc
  | token :: rest =>
      if has_char is_operation_char token then
        match rest with
        | [] =>
            CompilerError COMPILER_ERRORS.INCOMPLETE_EXPRESSION
              "a number literal" None lineNumber
        | nextToken :: rest' =>
            if String.eqb nextToken "" then
              CompilerError COMPILER_ERRORS.INCOMPLETE_EXPRESSION
                "a number literal" (Some nextToken) lineNumber
            else if has_char is_digit nextToken then
              scan (BinaryExpressionNode token acc (NumberNode nextToken))
                rest' lineNumber
            else
              CompilerError COMPILER_ERRORS.INVALID_TOKEN
                "a number literal" (Some nextToken) lineNumber
        end
      else
        CompilerError COMPILER_ERRORS.INVALID_TOKEN
          "an operation token" (Some token) lineNumber
  end.

(** What [parseExpression] computes from the tokens of a line, given last
    token first. *)
Definition scan_tokens (rtokens : list string) (lineNumber : nat)
  : ParseResult :=
  match rtokens with
  | [] => VoidNode
  | token :: rest =>
      if match rest with [] => String.eqb token "" | _ => false end then
        VoidNode
      else if has_char is_digit token then
        scan (NumberNode token) rest lineNumber
      else
        CompilerError COMPILER_ERRORS.INVALID_TOKEN
          "a number literal" (Some token) lineNumber
  end.

(** The tokens of a line that has the numeral [n0] at its right end and, to
    the left of it, the operators and numerals of [steps], nearest first:
    for steps [(op1, n1); (op2, n2)] the line reads [n2 op2 n1 op1 n0]. *)
Definition line_of (n0 : string) (steps : list (string * string))
  : list string :=
  rev (n0 :: flat_map (fun step => [fst step; snd step]) steps).

(** The tree of such a line: every step makes the tree so far the left
    operand of its operator and its numeral the right operand. *)
Definition tree_of (n0 : string) (steps : list (string * string))
  : ParseResult :=
  fold_left
    (fun acc step => BinaryExpressionNode (fst step) acc (NumberNode (snd step)))
    steps (NumberNode n0).

(** A step whose two tokens the parser takes: an operator token has one of
    the four characters, a numeral token has a digit. *)
Definition accepted_step (step : string * string) : bool :=
  has_char is_operation_char (fst step) && has_char is_digit (snd step).

(** The tokens a tree was made from, in the order of the line. *)
Fixpoint unparse (o : ParseResult) : list string :=
  match o with
  | NumberNode number => [number]
  | BinaryExpressionNode operation arg1 arg2 =>
      unparse arg2 ++ operation :: unparse arg1
  | _ => []
  end.

(** A tree whose right operands are all numbers and whose leftmost-nested
    operand is a number. *)
Fixpoint left_comb (o : ParseResult) : bool :=
  match o with
  | NumberNode _ => true
  | BinaryExpressionNode _ arg1 (NumberNode _) => left_comb arg1
  | _ => false
  end.

(** The BINARY_EXPRESSION nodes of a tree, along its left operands. *)
Fixpoint operations (o : ParseResult) : nat :=
  match o with
  | BinaryExpressionNode _ arg1 _ => S (operations arg1)
  | _ => 0
  end.

(** The three diagnostics a scan can end with. *)
Definition diagnostic_shape (tokens : list string) (lineNumber : nat)
  (o : ParseResult) : Prop :=
  (exists t,
      In t tokens /\ has_char is_digit t = false
      /\ o = CompilerError COMPILER_ERRORS.INVALID_TOKEN "a number literal"
               (Some t) lineNumber)
  \/ (exists t,
         In t tokens /\ has_char is_operation_char t = false
         /\ o = CompilerError COMPILER_ERRORS.INVALID_TOKEN
                  "an operation token" (Some t) lineNumber)
  \/ o = CompilerError COMPILER_ERRORS.INCOMPLETE_EXPRESSION
           "a number literal" None lineNumber
  \/ (In "" tokens
      /\ o = CompilerError COMPILER_ERRORS.INCOMPLETE_EXPRESSION
               "a number literal" (Some "") lineNumber).

(** ** Notions about white space *)

(** The white-space characters at the start of a string. *)
Fixpoint leading_space (s : string) : nat :=
  match s with
  | EmptyString => 0
  | String c s' => if is_space c then S (leading_space s') else 0
  end.

(** The last character of the string, if there is one, is not white
    space. *)
Fixpoint ends_without_space (s : string) : bool :=
  match s with
  | EmptyString => true
  | String c s' =>
      match s' with
      | EmptyString => negb (is_space c)
      | _ => ends_without_space s'
      end
  end.

(** A token as [compile] gives them to the parser for a line that is not
    blank: it has a character and no white space. *)
Definition clean_token (t : string) : bool :=
  negb (String.eqb t "") && negb (has_char is_space t).

(** The document the source runs itself on: the template literal at the
    end of [src/index.js], whose first and last lines are empty. *)
Definition sample_document : string :=
  String.concat (String "010" "")
    [""; "1"; "1 + 2 * 3"; "2 + 3"; "1 + 1"; "2 / 2"; "+ 1"; "/ + 1"; "1 +"; ""].

(** An interpretation of [JSArith] that computes nothing: a number is the
    expression that denotes it. *)
Module Symbolic.

#[local] Unset Elimination Schemes.
Inductive expr : Type :=
| ENumber (s : string)                              (* Number(s) *)
| EBinary (o : operator) (a b : JSValue expr).      (* a o b *)
#[local] Set Elimination Schemes.

Definition arithmetic : JSArith := {|
  num := expr;
  Number := ENumber;
  js_add := fun a b => JSNumber (EBinary OpAdd a b);
  js_sub := fun a b => JSNumber (EBinary OpSub a b);
  js_mul := fun a b => JSNumber (EBinary OpMul a b);
  js_div := fun a b => JSNumber (EBinary OpDiv a b)
|}.

End Symbolic.

(** * Properties *)

(** ** Arrays and strings *)

Lemma pop_snoc {A : Type} (l : list A) (x : A) :
  JSArray.pop (l ++ [x]) = Some (x, l).
Proof.
  induction l as [|y l IH]; simpl.
  - reflexivity.
  - rewrite IH. reflexivity.
Qed.

Lemma pop_some {A : Type} (l l' : list A) (x : A) :
  JSArray.pop l = Some (x, l') -> l = l' ++ [x].
Proof.
  revert l' x. induction l as [|y l IH]; simpl; intros l' x Hp.
  - discriminate.
  - destruct (JSArray.pop l) as [[z r]|] eqn:E.
    + inversion Hp; subst. rewrite (IH r x eq_refl). reflexivity.
    + inversion Hp; subst. destruct l as [|w l]; [reflexivity|].
      simpl in E. destruct (JSArray.pop l) as [[? ?]|]; discriminate.
Qed.

Lemma pop_none {A : Type} (l : list A) : JSArray.pop l = None -> l = [].
Proof.
  destruct l as [|y l]; simpl; [reflexivity|].
  destruct (JSArray.pop l) as [[? ?]|]; discriminate.
Qed.

Lemma pop_length {A : Type} (l l' : list A) (x : A) :
  JSArray.pop l = Some (x, l') -> List.length l = S (List.length l').
Proof.
  intros Hp. rewrite (pop_some _ _ _ Hp), length_app. simpl. lia.
Qed.

(** ** The two searches *)

Lemma heap_eta (h : Heap) :
  {| NUMBER_REGEX_lastIndex := NUMBER_REGEX_lastIndex h;
     OPERATION_REGEX_lastIndex := OPERATION_REGEX_lastIndex h |} = h.
Proof. destruct h; reflexivity. Qed.

(** Without the [g] and [y] flags, [test] starts at index 0 whatever
    [lastIndex] holds, and leaves it as it is. *)
Lemma test_no_flag (R : RegExp) (i : nat) (s : string) :
  global R = false -> sticky R = false ->
  test R i s =
    (match exec_from (source R) false s 0 with Some _ => true | None => false end, i).
Proof.
  intros Hg Hs. unfold test. rewrite Hg, Hs. simpl.
  destruct (exec_from (source R) false s 0); reflexivity.
Qed.

(** A greedy repetition matches whenever what follows it does. *)
Lemma bt_star_total {A : Type} (r : regex) (s : string) (k : string -> option A) :
  (forall s', k s' <> None) -> bt (Star r) s k <> None.
Proof.
  intros Hk. simpl. destruct (String.length s) as [|n].
  - apply Hk.
  - match goal with |- match ?b with _ => _ end <> _ => destruct b end.
    + discriminate.
    + apply Hk.
Qed.

Lemma in_range_19_09 (c : ascii) : in_range "1" "9" c = true -> is_digit c = true.
Proof.
  unfold is_digit, in_range. cbn [nat_of_ascii].
  rewrite !andb_true_iff, !Nat.leb_le. change (nat_of_ascii "1") with 49.
  change (nat_of_ascii "0") with 48. lia.
Qed.

(** The shape of [NUMBER_REGEX]: a first character in one of two ranges,
    then parts that can match nothing. *)
Lemma bt_head_none {A : Type} (R O : regex) (lo1 hi1 lo2 hi2 c : ascii)
  (s : string) (k : string -> option A) :
  in_range lo1 hi1 c = false -> in_range lo2 hi2 c = false ->
  bt (Seq (Alt (Seq (Range lo1 hi1) R) (Range lo2 hi2)) O) (String c s) k = None.
Proof.
  intros H1 H2. cbn [bt]. rewrite H1, H2. reflexivity.
Qed.

Lemma bt_head_nil {A : Type} (R O : regex) (lo1 hi1 lo2 hi2 : ascii)
  (k : string -> option A) :
  bt (Seq (Alt (Seq (Range lo1 hi1) R) (Range lo2 hi2)) O) "" k = None.
Proof. reflexivity. Qed.

Lemma bt_head_some {A : Type} (R O : regex) (lo1 hi1 lo2 hi2 c : ascii)
  (s : string) (k : string -> option A) :
  (forall s' (K : string -> option A),
      (forall s'', K s'' <> None) -> bt R s' K <> None) ->
  (forall s', bt O s' k <> None) ->
  in_range lo2 hi2 c = true ->
  bt (Seq (Alt (Seq (Range lo1 hi1) R) (Range lo2 hi2)) O) (String c s) k <> None.
Proof.
  intros HR HO H2. cbn [bt]. rewrite H2.
  destruct (in_range lo1 hi1 c).
  - destruct (bt R s (fun s' => bt O s' k)) eqn:E.
    + discriminate.
    + exfalso. exact (HR s _ HO E).
  - apply HO.
Qed.

Lemma bt_opt_total {A : Type} (F : regex) (s : string) (k : string -> option A) :
  (forall s', k s' <> None) -> bt (Opt F) s k <> None.
Proof.
  intros Hk. unfold Opt. cbn [bt]. destruct (bt F s k).
  - discriminate.
  - apply Hk.
Qed.

Lemma not_digit_not_19 (c : ascii) : is_digit c = false -> in_range "1" "9" c = false.
Proof.
  intros H. destruct (in_range "1" "9" c) eqn:E; [|reflexivity].
  rewrite (in_range_19_09 _ E) in H. discriminate.
Qed.

Lemma match_at_number (c : ascii) (s : string) :
  match_at (source NUMBER_REGEX) (String c s) = None <-> is_digit c = false.
Proof.
  unfold match_at. cbn [source NUMBER_REGEX new_RegExp]. split.
  - intros H. destruct (is_digit c) eqn:E; [|reflexivity].
    exfalso. revert H. apply bt_head_some.
    + intros s' K HK. apply bt_star_total. exact HK.
    + intros s'. apply bt_opt_total. discriminate.
    + exact E.
  - intros H. apply bt_head_none; [apply not_digit_not_19|]; exact H.
Qed.

Lemma exec_from_number (s : string) (i : nat) :
  exec_from (source NUMBER_REGEX) false s i = None <-> has_char is_digit s = false.
Proof.
  revert i. induction s as [|c s IH]; intros i.
  - simpl. split; reflexivity.
  - cbn [exec_from has_char].
    destruct (match_at (source NUMBER_REGEX) (String c s)) eqn:E.
    + split; [discriminate|]. intros H. apply orb_false_elim in H.
      destruct H as [H _]. apply (proj2 (match_at_number c s)) in H. congruence.
    + apply (proj1 (match_at_number c s)) in E. rewrite E. simpl. apply IH.
Qed.

Lemma match_at_operation (c : ascii) (s : string) :
  match_at (source OPERATION_REGEX) (String c s)
  = if is_operation_char c then Some s else None.
Proof.
  unfold match_at, is_operation_char. cbn [source OPERATION_REGEX new_RegExp bt].
  destruct (Ascii.eqb "+" c), (Ascii.eqb "-" c), (Ascii.eqb "*" c),
    (Ascii.eqb "/" c); reflexivity.
Qed.

Lemma exec_from_operation (s : string) (i : nat) :
  exec_from (source OPERATION_REGEX) false s i = None
  <-> has_char is_operation_char s = false.
Proof.
  revert i. induction s as [|c s IH]; intros i.
  - simpl. split; reflexivity.
  - cbn [exec_from has_char]. rewrite match_at_operation.
    destruct (is_operation_char c); simpl.
    + split; discriminate.
    + apply IH.
Qed.

(** What the two calls of [test] in the source compute, and that they leave
    the heap as it is. *)
Lemma NUMBER_REGEX_test_eq (s : string) (h : Heap) :
  NUMBER_REGEX_test s h = (Normal (has_char is_digit s), h).
Proof.
  unfold NUMBER_REGEX_test. rewrite test_no_flag by reflexivity.
  rewrite heap_eta. f_equal. f_equal.
  destruct (exec_from (source NUMBER_REGEX) false s 0) eqn:E;
    destruct (has_char is_digit s) eqn:D; try reflexivity.
  - apply (proj2 (exec_from_number s 0)) in D. congruence.
  - apply (proj1 (exec_from_number s 0)) in E. congruence.
Qed.

Lemma OPERATION_REGEX_test_eq (s : string) (h : Heap) :
  OPERATION_REGEX_test s h = (Normal (has_char is_operation_char s), h).
Proof.
  unfold OPERATION_REGEX_test. rewrite test_no_flag by reflexivity.
  rewrite heap_eta. f_equal. f_equal.
  destruct (exec_from (source OPERATION_REGEX) false s 0) eqn:E;
    destruct (has_char is_operation_char s) eqn:D; try reflexivity.
  - apply (proj2 (exec_from_operation s 0)) in D. congruence.
  - apply (proj1 (exec_from_operation s 0)) in E. congruence.
Qed.

Lemma bind_NUMBER_REGEX_test {B : Type} (s : string) (f : bool -> M B) (h : Heap) :
  bind (NUMBER_REGEX_test s) f h = f (has_char is_digit s) h.
Proof. unfold bind. rewrite NUMBER_REGEX_test_eq. reflexivity. Qed.

Lemma bind_OPERATION_REGEX_test {B : Type} (s : string) (f : bool -> M B) (h : Heap) :
  bind (OPERATION_REGEX_test s) f h = f (has_char is_operation_char s) h.
Proof. unfold bind. rewrite OPERATION_REGEX_test_eq. reflexivity. Qed.

(** A token of the numeral grammar starts with a digit. *)
Lemma numeral_grammar_head (t : string) :
  numeral_grammar t = true ->
  exists c s, t = String c s /\ is_digit c = true.
Proof.
  unfold numeral_grammar, full_match. cbn [source NUMBER_REGEX new_RegExp].
  destruct t as [|c s].
  - rewrite bt_head_nil. discriminate.
  - destruct (is_digit c) eqn:E.
    + intros _. exists c, s. split; [reflexivity|exact E].
    + rewrite bt_head_none; [discriminate|apply not_digit_not_19; exact E|exact E].
Qed.

Lemma numeral_grammar_test (t : string) :
  numeral_grammar t = true -> has_char is_digit t = true /\ String.eqb t "" = false.
Proof.
  intros H. destruct (numeral_grammar_head _ H) as (c & s & -> & Hc).
  simpl. rewrite Hc. split; reflexivity.
Qed.

Lemma symbol_test (o : operator) : has_char is_operation_char (symbol o) = true.
Proof. destruct o; reflexivity. Qed.

(** ** The loop of the parser *)

Lemma number_or_binary_isNode (o : ParseResult) :
  number_or_binary o = true -> isNode o = true.
Proof. destruct o; simpl; intros H; try reflexivity; discriminate. Qed.

Lemma stack_invariant_cases (stack : list ParseResult) :
  stack_invariant stack ->
  stack = [] \/ exists o, stack = [o] /\ number_or_binary o = true.
Proof.
  intros [Hlen Hall]. destruct stack as [|o [|o' stack]].
  - left. reflexivity.
  - right. exists o. split; [reflexivity|]. inversion Hall; assumption.
  - simpl in Hlen. lia.
Qed.

Lemma stack_invariant_one (o : ParseResult) :
  number_or_binary o = true -> stack_invariant [o].
Proof.
  intros H. split; [simpl; lia|]. constructor; [exact H|constructor].
Qed.

Lemma stack_invariant_nil : stack_invariant [].
Proof. split; [simpl; lia|constructor]. Qed.

(** One iteration from a state that satisfies the invariant: it leaves one
    fragment on the stack and fewer tokens, or returns a diagnostic; the
    heap is as before. *)
Lemma loop_body_step (token : string) (tokens : list string)
  (stack : list ParseResult) (lineNumber : nat) (h : Heap) :
  stack_invariant stack ->
  (exists tokens' o,
      loop_body token tokens stack lineNumber h
      = (Normal (Continue tokens' [o]), h)
      /\ number_or_binary o = true
      /\ List.length tokens' <= List.length tokens)
  \/ (exists r,
         loop_body token tokens stack lineNumber h = (Normal (Return r), h)
         /\ scan_diagnostic r = true).
Proof.
  intros Hinv. destruct (stack_invariant_cases _ Hinv) as [->|(o & -> & Ho)].
  - unfold loop_body. cbn [JSArray.pop]. rewrite bind_NUMBER_REGEX_test.
    destruct (has_char is_digit token).
    + left. exists tokens, (NumberNode token). repeat split. lia.
    + right. eexists. split; reflexivity.
  - unfold loop_body. cbn [JSArray.pop].
    rewrite (number_or_binary_isNode _ Ho). cbn [negb].
    fold (number_or_binary o). rewrite Ho.
    rewrite bind_OPERATION_REGEX_test.
    destruct (has_char is_operation_char token); cbn [negb].
    + destruct (JSArray.pop tokens) as [[nextToken tokens']|] eqn:Hpop.
      * destruct (String.eqb nextToken "").
        -- right. eexists. split; reflexivity.
        -- rewrite bind_NUMBER_REGEX_test.
           destruct (has_char is_digit nextToken); cbn [negb].
           ++ left. eexists. eexists. split; [reflexivity|].
              split; [reflexivity|]. rewrite (pop_length _ _ _ Hpop). lia.
           ++ right. eexists. split; reflexivity.
      * right. eexists. split; reflexivity.
    + right. eexists. split; reflexivity.
Qed.

(** The loop, from a state that satisfies the invariant and with a bound
    that is at least the number of tokens, ends: at a [return] with a
    diagnostic, or after the last token with one fragment (with the stack it
    started from when there was no token). *)
Lemma while_loop_ends (fuel : nat) :
  forall (tokens : list string) (stack : list ParseResult) (lineNumber : nat)
         (h : Heap),
    List.length tokens <= fuel ->
    stack_invariant stack ->
    exists e,
      while_loop fuel tokens stack lineNumber h = (Normal e, h)
      /\ match e with
         | Returned r => scan_diagnostic r = true
         | Exited st =>
             (tokens = [] /\ st = stack)
             \/ exists o, st = [o] /\ number_or_binary o = true
         end.
Proof.
  induction fuel as [|fuel IH]; intros tokens stack lineNumber h Hlen Hinv.
  - destruct tokens as [|t tokens]; [|simpl in Hlen; lia].
    exists (Exited stack). split; [reflexivity|]. left. split; reflexivity.
  - cbn [while_loop].
    destruct (JSArray.pop tokens) as [[token tokens']|] eqn:Hpop.
    + unfold bind.
      destruct (loop_body_step token tokens' stack lineNumber h Hinv)
        as [(tokens'' & o & -> & Ho & Hle)|(r & -> & Hr)].
      * apply pop_length in Hpop.
        destruct (IH tokens'' [o] lineNumber h) as (e & He & Hcase).
        -- lia.
        -- apply stack_invariant_one. exact Ho.
        -- exists e. split; [exact He|]. destruct e as [r|st]; [exact Hcase|].
           right. destruct Hcase as [[_ ->]|Hcase]; [|exact Hcase].
           exists o. split; [reflexivity|exact Ho].
      * exists (Returned r). split; [reflexivity|exact Hr].
    + exists (Exited stack). split; [reflexivity|].
      left. split; [apply pop_none; exact Hpop|reflexivity].
Qed.

(** [parseExpression] on any tokens: it returns an object and leaves the
    heap as it is; the object is the VOID node when the test at its head
    holds, and a number, a binary expression or a diagnostic of the scan
    otherwise. *)
Lemma parseExpression_cases (tokens : list string) (lineNumber : nat) (h : Heap) :
  exists r,
    parseExpression tokens lineNumber h = (Normal (Some r), h)
    /\ if no_tokens tokens then r = VoidNode
       else (number_or_binary r || scan_diagnostic r) = true.
Proof.
  unfold parseExpression. fold (no_tokens tokens).
  destruct (no_tokens tokens) eqn:Hno.
  - exists VoidNode. split; reflexivity.
  - destruct (while_loop_ends (List.length tokens) tokens [] lineNumber h
                (le_n _) stack_invariant_nil) as (e & He & Hcase).
    unfold bind. rewrite He. destruct e as [r|st].
    + exists r. split; [reflexivity|]. rewrite Hcase. apply orb_true_r.
    + destruct Hcase as [[-> _]|(o & -> & Ho)].
      * discriminate.
      * exists o. split; [reflexivity|]. rewrite Ho. reflexivity.
Qed.

(** ** Independence of the heap *)

Lemma heap_independent_ret {A : Type} (a : A) : heap_independent (ret a).
Proof. exists (Normal a). reflexivity. Qed.

Lemma heap_independent_throw {A : Type} (e : JSError) :
  heap_independent (throw e : M A).
Proof. exists (Throw e). reflexivity. Qed.

Lemma heap_independent_diverge {A : Type} : heap_independent (diverge : M A).
Proof. exists Diverges. reflexivity. Qed.

Lemma heap_independent_lift {A : Type} (c : Completion A) :
  heap_independent (lift c).
Proof. exists c. reflexivity. Qed.

Lemma heap_independent_bind {A B : Type} (m : M A) (f : A -> M B) :
  heap_independent m -> (forall a, heap_independent (f a)) ->
  heap_independent (bind m f).
Proof.
  intros [c Hm] Hf. destruct c as [a|e|].
  - destruct (Hf a) as [c' Hfa]. exists c'. intros h.
    unfold bind. rewrite Hm. apply Hfa.
  - exists (Throw e). intros h. unfold bind. rewrite Hm. reflexivity.
  - exists Diverges. intros h. unfold bind. rewrite Hm. reflexivity.
Qed.

Lemma heap_independent_NUMBER_REGEX_test (s : string) :
  heap_independent (NUMBER_REGEX_test s).
Proof. eexists. intros h. apply NUMBER_REGEX_test_eq. Qed.

Lemma heap_independent_OPERATION_REGEX_test (s : string) :
  heap_independent (OPERATION_REGEX_test s).
Proof. eexists. intros h. apply OPERATION_REGEX_test_eq. Qed.

Create HintDb heap discriminated.
#[local] Hint Resolve heap_independent_ret heap_independent_throw
  heap_independent_diverge heap_independent_lift
  heap_independent_NUMBER_REGEX_test heap_independent_OPERATION_REGEX_test
  : heap.

Ltac heap_step :=
  match goal with
  | |- heap_independent (bind _ _) => apply heap_independent_bind; [|intros ?]
  | |- heap_independent (match ?x with _ => _ end) => destruct x
  | |- heap_independent (if ?b then _ else _) => destruct b
  | |- heap_independent _ => solve [auto with heap]
  end.

Lemma heap_independent_loop_body (token : string) (tokens : list string)
  (stack : list ParseResult) (lineNumber : nat) :
  heap_independent (loop_body token tokens stack lineNumber).
Proof. unfold loop_body. repeat heap_step. Qed.

Lemma heap_independent_while_loop (fuel : nat) :
  forall (tokens : list string) (stack : list ParseResult) (lineNumber : nat),
    heap_independent (while_loop fuel tokens stack lineNumber).
Proof.
  induction fuel as [|fuel IH]; intros tokens stack lineNumber;
    cbn [while_loop].
  - repeat heap_step.
  - destruct (JSArray.pop tokens) as [[token tokens']|]; [|auto with heap].
    apply heap_independent_bind.
    + apply heap_independent_loop_body.
    + intros [tokens'' stack''|r]; [apply IH|auto with heap].
Qed.

Lemma heap_independent_parseExpression (tokens : list string) (lineNumber : nat) :
  heap_independent (parseExpression tokens lineNumber).
Proof.
  unfold parseExpression.
  match goal with |- heap_independent (if ?b then _ else _) => destruct b end;
    [auto with heap|].
  apply heap_independent_bind.
  - apply heap_independent_while_loop.
  - intros e. repeat heap_step.
Qed.

Lemma heap_independent_map_from {A B : Type} (f : A -> nat -> M B) (l : list A) :
  (forall x i, heap_independent (f x i)) ->
  forall index, heap_independent (map_from f index l).
Proof.
  intros Hf. induction l as [|x l IH]; intros index; cbn [map_from].
  - auto with heap.
  - apply heap_independent_bind; [apply Hf|]. intros y.
    apply heap_independent_bind; [apply IH|]. intros ys. auto with heap.
Qed.

Lemma heap_independent_compile (file : string) : heap_independent (compile file).
Proof.
  apply heap_independent_map_from. intros line i.
  apply heap_independent_parseExpression.
Qed.

Lemma heap_independent_run `{JSArith} (file : string) : heap_independent (run file).
Proof.
  apply heap_independent_bind; [apply heap_independent_compile|].
  intros stack. auto with heap.
Qed.

(** ** Trimming and splitting a line *)

Lemma trimStart_all_space (s : string) : all_space s = true -> trimStart s = "".
Proof.
  induction s as [|c s IH]; simpl; [reflexivity|].
  destruct (is_space c); simpl; [exact IH|discriminate].
Qed.

Lemma trimStart_head (s : string) :
  all_space s = false ->
  exists c s', trimStart s = String c s' /\ is_space c = false.
Proof.
  induction s as [|c s IH]; simpl; [discriminate|].
  destruct (is_space c) eqn:E; simpl.
  - exact IH.
  - intros _. exists c, s. split; [reflexivity|exact E].
Qed.

Lemma trimEnd_head (c : ascii) (s : string) :
  is_space c = false -> exists s', trimEnd (String c s) = String c s'.
Proof.
  intros E. cbn [trimEnd]. destruct (trimEnd s) as [|c' t].
  - rewrite E. exists "". reflexivity.
  - exists (String c' t). reflexivity.
Qed.

Lemma trim_all_space (line : string) : all_space line = true -> trim line = "".
Proof.
  intros H. unfold trim. rewrite (trimStart_all_space _ H). reflexivity.
Qed.

Lemma trim_head (line : string) :
  all_space line = false ->
  exists c s, trim line = String c s /\ is_space c = false.
Proof.
  intros H. destruct (trimStart_head _ H) as (c & s' & E & Hc).
  unfold trim. rewrite E. destruct (trimEnd_head c s' Hc) as [t Ht].
  exists c, t. split; [exact Ht|exact Hc].
Qed.

Lemma rev_string_not_empty (s acc : string) : acc <> "" -> rev_string acc s <> "".
Proof.
  revert acc. induction s as [|c s IH]; intros acc Hacc; simpl.
  - exact Hacc.
  - apply IH. discriminate.
Qed.

(** A piece that has a character when a separator is looked for is the
    first piece of the result, whatever the separator. *)
Lemma split_loop_first (r : regex) (s : string) :
  forall (c : ascii) (cur : string),
  exists x rest, split_loop r 0 (String c cur) s = x :: rest /\ x <> "".
Proof.
  induction s as [|c' s IH]; intros c cur.
  - eexists. eexists. split; [reflexivity|].
    cbn [rev_string]. apply rev_string_not_empty. discriminate.
  - cbn [split_loop]. destruct (match_at r (String c' s)) as [rest|].
    + destruct (String.length (String c' s) - String.length rest);
        (eexists; eexists; split; [reflexivity|]);
        cbn [rev_string]; apply rev_string_not_empty; discriminate.
    + apply IH.
Qed.

Lemma lexer_blank : lexer "" = [""].
Proof. reflexivity. Qed.

Lemma lexer_head (c : ascii) (s : string) :
  is_space c = false ->
  exists x rest, lexer (String c s) = x :: rest /\ x <> "".
Proof.
  intros Hc. unfold lexer, split. cbn [split_loop].
  assert (E : match_at (Plus WhiteSpace) (String c s) = None).
  { unfold match_at, Plus. cbn [bt]. rewrite Hc. reflexivity. }
  rewrite E. apply split_loop_first.
Qed.

Lemma no_tokens_head (x : string) (rest : list string) :
  x <> "" -> no_tokens (x :: rest) = false.
Proof.
  intros Hx. unfold no_tokens. cbn [List.length nth_error Nat.eqb orb].
  apply (proj2 (String.eqb_neq x "")) in Hx. rewrite Hx.
  apply andb_false_r.
Qed.

(** ** Lines of a document *)

Lemma compile_line_cases (line : string) (index : nat) (h : Heap) :
  exists r,
    compile_line line index h = (Normal (Some r), h)
    /\ if all_space line then r = VoidNode
       else (number_or_binary r || scan_diagnostic r) = true.
Proof.
  unfold compile_line. destruct (all_space line) eqn:Hs.
  - rewrite (trim_all_space _ Hs), lexer_blank.
    exists VoidNode. split; reflexivity.
  - destruct (trim_head _ Hs) as (c & s & -> & Hc).
    destruct (lexer_head c s Hc) as (x & rest & -> & Hx).
    destruct (parseExpression_cases (x :: rest) (index + 1) h) as (r & Hr & Hcase).
    rewrite (no_tokens_head x rest Hx) in Hcase. exists r. split; assumption.
Qed.

(** [compile] and then [execute] on the lines [l], the first of which has
    index [index]. *)
Lemma compile_execute `{JSArith} (l : list string) :
  forall (index : nat) (h : Heap),
  exists stack out,
    map_from compile_line index l h = (Normal stack, h)
    /\ execute stack = Normal out
    /\ map Some out
       = map (line_value h) (combine (seq index (List.length l)) l).
Proof.
  induction l as [|line l IH]; intros index h.
  - exists [], []. repeat split.
  - destruct (compile_line_cases line index h) as (r & Hr & _).
    destruct (IH (S index) h) as (stack & out & Hs & He & Hout).
    exists (Some r :: stack), (value r :: out). split; [|split].
    + cbn [map_from]. unfold bind. rewrite Hr, Hs. reflexivity.
    + cbn [execute call_value]. rewrite He. reflexivity.
    + cbn [List.length seq combine map]. rewrite Hout. f_equal.
      unfold line_value. cbn [fst snd]. rewrite Hr. reflexivity.
Qed.

Lemma split_on_length (sep : ascii) (s cur : string) :
  List.length (split_on sep cur s) = S (occurrences sep s).
Proof.
  revert cur. induction s as [|c s IH]; intros cur; simpl; [reflexivity|].
  destruct (Ascii.eqb c sep); simpl; rewrite IH; reflexivity.
Qed.

(** ** The reduction steps *)

Lemma loop_body_first (token : string) (tokens : list string)
  (lineNumber : nat) (h : Heap) :
  numeral_grammar token = true ->
  loop_body token tokens [] lineNumber h
  = (Normal (Continue tokens [NumberNode token]), h).
Proof.
  intros Hn. destruct (numeral_grammar_test _ Hn) as [Hd _].
  unfold loop_body. cbn [JSArray.pop]. rewrite bind_NUMBER_REGEX_test, Hd.
  reflexivity.
Qed.

Lemma loop_body_reduce (o : operator) (numeral : string) (tokens : list string)
  (acc : ParseResult) (lineNumber : nat) (h : Heap) :
  number_or_binary acc = true ->
  numeral_grammar numeral = true ->
  loop_body (symbol o) (tokens ++ [numeral]) [acc] lineNumber h
  = (Normal (Continue tokens
               [BinaryExpressionNode (symbol o) acc (NumberNode numeral)]), h).
Proof.
  intros Hacc Hn. destruct (numeral_grammar_test _ Hn) as [Hd He].
  unfold loop_body. cbn [JSArray.pop].
  rewrite (number_or_binary_isNode _ Hacc). cbn [negb].
  fold (number_or_binary acc). rewrite Hacc.
  rewrite bind_OPERATION_REGEX_test, symbol_test. cbn [negb].
  rewrite pop_snoc, He, bind_NUMBER_REGEX_test, Hd. reflexivity.
Qed.

Lemma while_loop_continue (fuel : nat) (token : string)
  (tokens : list string) (stack : list ParseResult) (lineNumber : nat)
  (h : Heap) (tokens' : list string) (stack' : list ParseResult) (h' : Heap) :
  loop_body token tokens stack lineNumber h
  = (Normal (Continue tokens' stack'), h') ->
  while_loop (S fuel) (tokens ++ [token]) stack lineNumber h
  = while_loop fuel tokens' stack' lineNumber h'.
Proof.
  intros E. cbn [while_loop]. rewrite pop_snoc. unfold bind. rewrite E.
  reflexivity.
Qed.

Lemma loop_state_invariant (k : nat) :
  forall (tokens : list string) (stack : list ParseResult) (lineNumber : nat)
         (h : Heap) (tokens' : list string) (stack' : list ParseResult)
         (h' : Heap),
    stack_invariant stack ->
    loop_state k tokens stack lineNumber h = Some (tokens', stack', h') ->
    stack_invariant stack' /\ h' = h.
Proof.
  induction k as [|k IH]; intros tokens stack lineNumber h tokens' stack' h'
                                 Hinv Hst.
  - inversion Hst; subst. split; [exact Hinv|reflexivity].
  - cbn [loop_state] in Hst.
    destruct (JSArray.pop tokens) as [[token rest]|]; [|discriminate].
    destruct (loop_body_step token rest stack lineNumber h Hinv)
      as [(tokens'' & o & E & Ho & _)|(r & E & _)]; rewrite E in Hst.
    + apply (IH _ _ _ _ _ _ _ (stack_invariant_one _ Ho) Hst).
    + discriminate.
Qed.

Lemma scan_diagnostic_kind (r : ParseResult) :
  scan_diagnostic r = true ->
  is_diagnostic COMPILER_ERRORS.INVALID_STACK (Normal (Some r)) = false
  /\ is_diagnostic COMPILER_ERRORS.MULTIPLE_EXPRESSIONS (Normal (Some r)) = false.
Proof.
  destruct r as [|n|o a b|e x t l]; simpl; try discriminate.
  intros H. apply orb_true_iff in H.
  destruct H as [H|H]; apply String.eqb_eq in H; subst e; split; reflexivity.
Qed.

Lemma number_or_binary_kind (r : ParseResult) (error : string) :
  number_or_binary r = true -> is_diagnostic error (Normal (Some r)) = false.
Proof. destruct r; simpl; try reflexivity; discriminate. Qed.

(** A larger bound on the iterations does not change what the loop gives. *)
Lemma while_loop_more_fuel (fuel : nat) :
  forall (tokens : list string) (stack : list ParseResult) (lineNumber : nat)
         (h h' : Heap) (e : LoopExit),
    while_loop fuel tokens stack lineNumber h = (Normal e, h') ->
    while_loop (S fuel) tokens stack lineNumber h = (Normal e, h').
Proof.
  induction fuel as [|fuel IH]; intros tokens stack lineNumber h h' e.
  - cbn [while_loop].
    destruct (JSArray.pop tokens) as [[token rest]|]; [discriminate|].
    intros E. exact E.
  - intros E. cbn [while_loop] in E. cbn [while_loop].
    destruct (JSArray.pop tokens) as [[token rest]|]; [|exact E].
    unfold bind in *.
    destruct (loop_body token rest stack lineNumber h) as [[[ts st|r]|x|] h''];
      try exact E.
    apply IH. exact E.
Qed.

(** The parse of the sample document, line by line. *)
Example compile_sample_document :
  fst (compile sample_document initial_heap)
  = Normal
      [Some VoidNode;
       Some (NumberNode "1");
       Some (BinaryExpressionNode "+"
               (BinaryExpressionNode "*" (NumberNode "3") (NumberNode "2"))
               (NumberNode "1"));
       Some (BinaryExpressionNode "+" (NumberNode "3") (NumberNode "2"));
       Some (BinaryExpressionNode "+" (NumberNode "1") (NumberNode "1"));
       Some (BinaryExpressionNode "/" (NumberNode "2") (NumberNode "2"));
       Some (CompilerError COMPILER_ERRORS.INCOMPLETE_EXPRESSION
               "a number literal" None 7);
       Some (CompilerError COMPILER_ERRORS.INVALID_TOKEN
               "a number literal" (Some "/") 8);
       Some (CompilerError COMPILER_ERRORS.INVALID_TOKEN
               "a number literal" (Some "+") 9);
       Some VoidNode].
Proof. vm_compute. reflexivity. Qed.



(** * The claims *)

(** C1.  Right-to-left reduction law.  For a line whose tokens are
    [t1, op1, t2, op2, t3], with [t1], [t2], [t3] numerals of the grammar
    and [op1], [op2] two of the four operators: the rightmost numeral is
    pushed as a NUMBER node; each later iteration makes a
    BINARY_EXPRESSION whose left operand is the fragment on the stack and
    whose right operand is the numeral just taken, further to the left;
    [parseExpression] returns the tree of these two steps, and its value
    is [(t3 op2 t2) op1 t1]. *)
Theorem right_to_left_reduction `{JSArith} (t1 t2 t3 : string)
  (o1 o2 : operator) (lineNumber : nat) (h : Heap) :
  numeral_grammar t1 = true ->
  numeral_grammar t2 = true ->
  numeral_grammar t3 = true ->
  loop_body t3 [t1; symbol o1; t2; symbol o2] [] lineNumber h
  = (Normal (Continue [t1; symbol o1; t2; symbol o2] [NumberNode t3]), h)
  /\ loop_body (symbol o2) [t1; symbol o1; t2] [NumberNode t3] lineNumber h
     = (Normal
          (Continue [t1; symbol o1]
             [BinaryExpressionNode (symbol o2) (NumberNode t3) (NumberNode t2)]),
        h)
  /\ loop_body (symbol o1) [t1]
       [BinaryExpressionNode (symbol o2) (NumberNode t3) (NumberNode t2)]
       lineNumber h
     = (Normal
          (Continue []
             [BinaryExpressionNode (symbol o1)
                (BinaryExpressionNode (symbol o2) (NumberNode t3) (NumberNode t2))
                (NumberNode t1)]),
        h)
  /\ parseExpression [t1; symbol o1; t2; symbol o2; t3] lineNumber h
     = (Normal
          (Some
             (BinaryExpressionNode (symbol o1)
                (BinaryExpressionNode (symbol o2) (NumberNode t3) (NumberNode t2))
                (NumberNode t1))),
        h)
  /\ value
       (BinaryExpressionNode (symbol o1)
          (BinaryExpressionNode (symbol o2) (NumberNode t3) (NumberNode t2))
          (NumberNode t1))
     = arith o1
         (arith o2 (JSNumber (Number t3)) (JSNumber (Number t2)))
         (JSNumber (Number t1)).
Proof.
  intros H1 H2 H3.
  assert (S0 := loop_body_first t3 [t1; symbol o1; t2; symbol o2] lineNumber h H3).
  assert (S1 := loop_body_reduce o2 t2 [t1; symbol o1] (NumberNode t3)
                  lineNumber h eq_refl H2).
  assert (S2 := loop_body_reduce o1 t1 []
                  (BinaryExpressionNode (symbol o2) (NumberNode t3) (NumberNode t2))
                  lineNumber h eq_refl H1).
  cbn [app] in S1, S2.
  repeat split; try assumption.
  - unfold parseExpression. cbn [List.length Nat.eqb orb andb]. unfold bind.
    change [t1; symbol o1; t2; symbol o2; t3]
      with ([t1; symbol o1; t2; symbol o2] ++ [t3]).
    rewrite (while_loop_continue 4 _ _ _ _ _ _ _ _ S0).
    change [t1; symbol o1; t2; symbol o2] with ([t1; symbol o1; t2] ++ [symbol o2]).
    rewrite (while_loop_continue 3 _ _ _ _ _ _ _ _ S1).
    change [t1; symbol o1] with ([t1] ++ [symbol o1]).
    rewrite (while_loop_continue 2 _ _ _ _ _ _ _ _ S2).
    reflexivity.
  - destruct o1, o2; reflexivity.
Qed.

(** The law at the line "1 + 2 * 3" of the source's sample document. *)
Lemma right_to_left_reduction_witness :
  numeral_grammar "1" = true /\ numeral_grammar "2" = true
  /\ numeral_grammar "3" = true
  /\ parseExpression ["1"; "+"; "2"; "*"; "3"] 3 initial_heap
     = (Normal
          (Some
             (BinaryExpressionNode "+"
                (BinaryExpressionNode "*" (NumberNode "3") (NumberNode "2"))
                (NumberNode "1"))),
        initial_heap)
  /\ value (H := Symbolic.arithmetic)
       (BinaryExpressionNode "+"
          (BinaryExpressionNode "*" (NumberNode "3") (NumberNode "2"))
          (NumberNode "1"))
     = JSNumber
         (Symbolic.EBinary OpAdd
            (JSNumber
               (Symbolic.EBinary OpMul (JSNumber (Symbolic.ENumber "3"))
                  (JSNumber (Symbolic.ENumber "2"))))
            (JSNumber (Symbolic.ENumber "1"))).
Proof.
  split; [reflexivity|]. split; [reflexivity|]. split; [reflexivity|].
  destruct (@right_to_left_reduction Symbolic.arithmetic "1" "2" "3" OpAdd OpMul
              3 initial_heap eq_refl eq_refl eq_refl)
    as (_ & _ & _ & Hparse & Hvalue).
  split; [exact Hparse|exact Hvalue].
Defined.

(** C2.  Numeral-grammar enforcement does not hold of the code: the search
    with [NUMBER_REGEX] is not anchored, so a token that has a digit
    anywhere is taken as a numeral.  The token "1x", alone on its line, and
    the token "-5", as the operand of an operator, are outside the grammar
    and both become NUMBER nodes. *)
Theorem number_test_is_unanchored (lineNumber : nat) (h : Heap) :
  numeral_grammar "1x" = false
  /\ parseExpression ["1x"] lineNumber h = (Normal (Some (NumberNode "1x")), h)
  /\ numeral_grammar "-5" = false
  /\ parseExpression ["-5"; "+"; "2"] lineNumber h
     = (Normal
          (Some (BinaryExpressionNode "+" (NumberNode "2") (NumberNode "-5"))),
        h).
Proof.
  destruct h as [i j]. repeat split; reflexivity.
Qed.

(** C3.  Operator-grammar enforcement does not hold of the code: the search
    with [OPERATION_REGEX] is not anchored, so a token that has one of the
    four characters anywhere is taken as an operator.  The token "++" is
    outside the grammar; it is installed in a BINARY_EXPRESSION node, whose
    value is [undefined] because no case of the switch is that string. *)
Theorem operation_test_is_unanchored `{JSArith} (lineNumber : nat) (h : Heap) :
  operator_grammar "++" = false
  /\ parseExpression ["1"; "++"; "2"] lineNumber h
     = (Normal
          (Some (BinaryExpressionNode "++" (NumberNode "2") (NumberNode "1"))),
        h)
  /\ value (BinaryExpressionNode "++" (NumberNode "2") (NumberNode "1"))
     = JSUndefined.
Proof.
  destruct h as [i j]. repeat split; reflexivity.
Qed.

(** C4.  Parser totality.  For every array of tokens, every line number and
    every heap, [parseExpression] ends within the bound of its loop, throws
    nothing and returns an object, never [undefined]; the object has one of
    the four types, and the heap is left as it was. *)
Theorem parseExpression_total (tokens : list string) (lineNumber : nat)
  (h : Heap) :
  exists r,
    parseExpression tokens lineNumber h = (Normal (Some r), h)
    /\ (type r = "VOID" \/ type r = "NUMBER" \/ type r = "BINARY_EXPRESSION"
        \/ type r = "ERROR").
Proof.
  destruct (parseExpression_cases tokens lineNumber h) as (r & Hr & _).
  exists r. split; [exact Hr|]. destruct r; simpl; auto.
Qed.

(** C5.  Stack invariant.  In every state the loop of [parseExpression]
    reaches from the empty stack (the end of an iteration and the start of
    the next), the stack holds at most one fragment, and a fragment it
    holds is a NUMBER or a BINARY_EXPRESSION node; and no call of
    [parseExpression] returns an INVALID_STACK or a MULTIPLE_EXPRESSIONS
    diagnostic. *)
Theorem stack_invariant_holds (tokens : list string) (lineNumber k : nat)
  (h : Heap) (tokens' : list string) (stack' : list ParseResult) (h' : Heap) :
  loop_state k tokens [] lineNumber h = Some (tokens', stack', h') ->
  List.length stack' <= 1
  /\ Forall (fun o => number_or_binary o = true) stack'
  /\ is_diagnostic COMPILER_ERRORS.INVALID_STACK
       (fst (parseExpression tokens lineNumber h)) = false
  /\ is_diagnostic COMPILER_ERRORS.MULTIPLE_EXPRESSIONS
       (fst (parseExpression tokens lineNumber h)) = false.
Proof.
  intros Hst.
  destruct (loop_state_invariant k tokens [] lineNumber h tokens' stack' h'
              stack_invariant_nil Hst) as [[Hlen Hall] _].
  split; [exact Hlen|]. split; [exact Hall|].
  destruct (parseExpression_cases tokens lineNumber h) as (r & -> & Hcase).
  cbn [fst]. destruct (no_tokens tokens).
  - subst r. split; reflexivity.
  - apply orb_true_iff in Hcase. destruct Hcase as [Hn|Hd].
    + split; apply number_or_binary_kind; exact Hn.
    + apply scan_diagnostic_kind. exact Hd.
Qed.

(** The invariant after the two iterations of the line "1 + 2". *)
Lemma stack_invariant_holds_witness :
  loop_state 2 ["1"; "+"; "2"] [] 1 initial_heap
  = Some ([], [BinaryExpressionNode "+" (NumberNode "2") (NumberNode "1")],
          initial_heap)
  /\ List.length [BinaryExpressionNode "+" (NumberNode "2") (NumberNode "1")] <= 1
  /\ is_diagnostic COMPILER_ERRORS.MULTIPLE_EXPRESSIONS
       (fst (parseExpression ["1"; "+"; "2"] 1 initial_heap)) = false.
Proof.
  split; [reflexivity|].
  destruct (stack_invariant_holds ["1"; "+"; "2"] 1 2 initial_heap [] _ _ eq_refl)
    as (Hlen & _ & _ & Hm).
  split; [exact Hlen|exact Hm].
Defined.





(** C7.  The line "+ 1".  The parser returns an INCOMPLETE_EXPRESSION
    diagnostic that expects "a number literal" at the line's 1-based number,
    but its offending token is [undefined], not the empty string, and the
    message reads got 'undefined'. *)
Theorem leading_operator_line `{JSArith} (index : nat) (h : Heap) :
  lexer (trim "+ 1") = ["+"; "1"]
  /\ compile_line "+ 1" index h
     = (Normal
          (Some
             (CompilerError COMPILER_ERRORS.INCOMPLETE_EXPRESSION
                "a number literal" None (index + 1))),
        h)
  /\ value
       (CompilerError COMPILER_ERRORS.INCOMPLETE_EXPRESSION
          "a number literal" None (index + 1))
     = JSString
         ("[COMPILATION ERROR]: Incomplete expression provided => expected a number literal, got 'undefined' on line "
            ++ of_nat (index + 1))%string.
Proof.
  destruct h as [i j]. repeat split; reflexivity.
Qed.

(** The message of that diagnostic at line 7 of the sample document. *)
Example leading_operator_message `{JSArith} :
  option_map value (nth 6 (match fst (compile sample_document initial_heap) with
                           | Normal stack => stack
                           | _ => []
                           end) None)
  = Some (JSString
            "[COMPILATION ERROR]: Incomplete expression provided => expected a number literal, got 'undefined' on line 7").
Proof. reflexivity. Qed.

(** C8.  Blank lines.  A line that is empty or all white space gives the
    VOID node, whose value is [null] (neither a number nor a string); every
    other line gives a NUMBER node, a BINARY_EXPRESSION node or a
    diagnostic, and so never the VOID node. *)
Theorem blank_line_is_void `{JSArith} (line : string) (index : nat) (h : Heap) :
  exists r,
    compile_line line index h = (Normal (Some r), h)
    /\ if all_space line
       then r = VoidNode /\ value r = JSNull
            /\ (forall x, value r <> JSNumber x)
            /\ (forall s, value r <> JSString s)
       else r <> VoidNode
            /\ (type r = "NUMBER" \/ type r = "BINARY_EXPRESSION"
                \/ type r = "ERROR").
Proof.
  destruct (compile_line_cases line index h) as (r & Hr & Hcase).
  exists r. split; [exact Hr|]. destruct (all_space line).
  - subst r. repeat split; discriminate.
  - destruct r; simpl in *; try discriminate; split; auto; discriminate.
Qed.

(** C9.  One result for each line.  [execute(compile(file))] ends with an
    array that has as many elements as [file.split('\n')] has lines (one
    more than the newline characters of the document), and its element at
    index [i] is the value of the parse of line [i], with line number
    [i + 1]. *)
Theorem one_result_per_line `{JSArith} (file : string) (h : Heap) :
  exists out,
    run file h = (Normal out, h)
    /\ List.length out = List.length (split_char "010" file)
    /\ List.length out = S (occurrences "010" file)
    /\ map Some out
       = map (line_value h)
           (combine (seq 0 (List.length (split_char "010" file)))
              (split_char "010" file)).
Proof.
  destruct (compile_execute (split_char "010" file) 0 h)
    as (stack & out & Hc & He & Hout).
  exists out. split; [|split; [|split]].
  - unfold run, compile, bind, lift. rewrite Hc, He. reflexivity.
  - apply (f_equal (@List.length _)) in Hout.
    rewrite !length_map, length_combine, length_seq, Nat.min_id in Hout.
    exact Hout.
  - apply (f_equal (@List.length _)) in Hout.
    rewrite !length_map, length_combine, length_seq, Nat.min_id in Hout.
    rewrite Hout. apply split_on_length.
  - exact Hout.
Qed.

(** C10.  Determinism.  The output of [execute(compile(file))] is the same
    from every heap, the run leaves the heap as it found it, and so a second
    run after the first gives the same output; the same holds of the parse
    of each line. *)
Theorem run_is_deterministic `{JSArith} (file line : string) (index : nat)
  (h1 h2 : Heap) :
  fst (run file h1) = fst (run file h2)
  /\ snd (run file h1) = h1
  /\ fst (run file (snd (run file h1))) = fst (run file h1)
  /\ fst (compile_line line index h1) = fst (compile_line line index h2)
  /\ snd (compile_line line index h1) = h1.
Proof.
  destruct (heap_independent_run file) as [c Hc].
  destruct (heap_independent_parseExpression (lexer (trim line)) (index + 1))
    as [d Hd].
  unfold compile_line. rewrite !Hc, !Hd. cbn [fst snd].
  repeat split.
Qed.


(** * Further properties of the parser *)

(** ** The loop as a recursion on the tokens *)

Lemma pair_induction {A : Type} (P : list A -> Prop) :
  P [] -> (forall x, P [x]) -> (forall x y l, P l -> P (x :: y :: l)) ->
  forall l, P l.
Proof.
  intros H0 H1 H2.
  assert (H : forall l, P l /\ forall x, P (x :: l)).
  { induction l as [|y l [IH IHx]].
    - split; [exact H0|exact H1].
    - split; [apply IHx|]. intros x. apply H2. exact IH. }
  intros l. apply H.
Qed.

Lemma no_tokens_snoc (l : list string) (t : string) :
  no_tokens (l ++ [t])
  = match l with [] => String.eqb t "" | _ => false end.
Proof.
  unfold no_tokens. destruct l as [|a [|b l]]; reflexivity.
Qed.

Lemma scan_number_or_diagnostic (rtokens : list string) :
  forall (acc : ParseResult) (lineNumber : nat),
    number_or_binary acc = true ->
    number_or_binary (scan acc rtokens lineNumber) = true
    \/ isNode (scan acc rtokens lineNumber) = false.
Proof.
  induction rtokens as [|token|token nextToken rest IH] using pair_induction;
    intros acc lineNumber Hacc; cbn [scan].
  - left. exact Hacc.
  - destruct (has_char is_operation_char token); right; reflexivity.
  - destruct (has_char is_operation_char token); [|right; reflexivity].
    destruct (String.eqb nextToken ""); [right; reflexivity|].
    destruct (has_char is_digit nextToken); [|right; reflexivity].
    apply IH. reflexivity.
Qed.

(** The loop from one fragment: it leaves the stack with the tree of the
    scan, or returns the diagnostic of the scan. *)
Lemma while_loop_scan (fuel : nat) :
  forall (rtokens : list string) (acc : ParseResult) (lineNumber : nat)
         (h : Heap),
    number_or_binary acc = true ->
    List.length rtokens <= fuel ->
    while_loop fuel (rev rtokens) [acc] lineNumber h
    = (Normal (if isNode (scan acc rtokens lineNumber)
               then Exited [scan acc rtokens lineNumber]
               else Returned (scan acc rtokens lineNumber)), h).
Proof.
  induction fuel as [|fuel IH]; intros rtokens acc lineNumber h Hacc Hlen.
  - destruct rtokens as [|t rest]; [|simpl in Hlen; lia].
    cbn [rev scan while_loop JSArray.pop].
    rewrite (number_or_binary_isNode _ Hacc). reflexivity.
  - destruct rtokens as [|token rest].
    + cbn [rev scan while_loop JSArray.pop].
      rewrite (number_or_binary_isNode _ Hacc). reflexivity.
    + cbn [rev while_loop scan]. rewrite pop_snoc. unfold bind at 1.
      unfold loop_body. cbn [JSArray.pop].
      rewrite (number_or_binary_isNode _ Hacc). cbn [negb].
      fold (number_or_binary acc). rewrite Hacc.
      rewrite bind_OPERATION_REGEX_test.
      destruct (has_char is_operation_char token); cbn [negb];
        [|reflexivity].
      destruct rest as [|nextToken rest']; [reflexivity|].
      cbn [rev]. rewrite pop_snoc.
      destruct (String.eqb nextToken ""); [reflexivity|].
      rewrite bind_NUMBER_REGEX_test.
      destruct (has_char is_digit nextToken); cbn [negb]; [|reflexivity].
      cbn [JSArray.push app]. apply IH; [reflexivity|].
      simpl in Hlen. lia.
Qed.

(** [parseExpression] is the scan of the tokens from the last to the
    first. *)
Lemma parseExpression_scan (tokens : list string) (lineNumber : nat) (h : Heap) :
  parseExpression tokens lineNumber h
  = (Normal (Some (scan_tokens (rev tokens) lineNumber)), h).
Proof.
  rewrite <- (rev_involutive tokens) at 1.
  destruct (rev tokens) as [|token rest]; [reflexivity|].
  cbn [rev scan_tokens]. unfold parseExpression.
  fold (no_tokens (rev rest ++ [token])). rewrite no_tokens_snoc.
  assert (Hrev : match rev rest with [] => String.eqb token "" | _ => false end
                 = match rest with [] => String.eqb token "" | _ => false end).
  { destruct rest as [|a rest]; [reflexivity|].
    cbn [rev]. destruct (rev rest); reflexivity. }
  rewrite Hrev.
  destruct (match rest with [] => String.eqb token "" | _ => false end);
    [reflexivity|].
  rewrite length_app. cbn [List.length]. rewrite Nat.add_1_r.
  unfold bind at 1. cbn [while_loop]. rewrite pop_snoc. unfold bind at 1.
  unfold loop_body. cbn [JSArray.pop]. rewrite bind_NUMBER_REGEX_test.
  destruct (has_char is_digit token); [|reflexivity].
  cbn [JSArray.push app]. unfold ret at 1. cbv beta iota.
  rewrite (while_loop_scan (List.length (rev rest)) rest (NumberNode token)
             lineNumber h eq_refl).
  - destruct (scan_number_or_diagnostic rest (NumberNode token) lineNumber
                eq_refl) as [Hn|Hd].
    + rewrite (number_or_binary_isNode _ Hn). reflexivity.
    + rewrite Hd. reflexivity.
  - rewrite length_rev. apply le_n.
Qed.

(** ** The scan *)

Lemma has_char_not_empty (p : ascii -> bool) (s : string) :
  has_char p s = true -> String.eqb s "" = false.
Proof. destruct s; [discriminate|reflexivity]. Qed.

Lemma number_or_binary_not_diagnostic (e x : string) (t : option string)
  (l : nat) : number_or_binary (CompilerError e x t l) = false.
Proof. reflexivity. Qed.

(** Tokens to the left of a scan that ends with a tree are scanned from that
    tree. *)
Lemma scan_app_node (r1 r2 : list string) :
  forall (acc : ParseResult) (lineNumber : nat),
    number_or_binary (scan acc r1 lineNumber) = true ->
    scan acc (r1 ++ r2) lineNumber = scan (scan acc r1 lineNumber) r2 lineNumber.
Proof.
  induction r1 as [|token|token nextToken rest IH] using pair_induction;
    intros acc lineNumber.
  - reflexivity.
  - cbn [scan]. destruct (has_char is_operation_char token); discriminate.
  - cbn [scan app]. destruct (has_char is_operation_char token);
      [|discriminate].
    destruct (String.eqb nextToken ""); [discriminate|].
    destruct (has_char is_digit nextToken); [|discriminate].
    apply IH.
Qed.

(** Tokens to the left of a scan that ends with a diagnostic about a token
    do not change it. *)
Lemma scan_app_diagnostic (r1 r2 : list string) :
  forall (acc : ParseResult) (lineNumber : nat) (e x t : string) (l : nat),
    number_or_binary acc = true ->
    scan acc r1 lineNumber = CompilerError e x (Some t) l ->
    scan acc (r1 ++ r2) lineNumber = CompilerError e x (Some t) l.
Proof.
  induction r1 as [|token|token nextToken rest IH] using pair_induction;
    intros acc lineNumber e x t l Hacc.
  - cbn [scan]. intros ->. discriminate.
  - cbn [scan app]. destruct (has_char is_operation_char token);
      [discriminate|]. intros H. exact H.
  - cbn [scan app]. destruct (has_char is_operation_char token);
      [|intros H; exact H].
    destruct (String.eqb nextToken ""); [intros H; exact H|].
    destruct (has_char is_digit nextToken); [|intros H; exact H].
    apply IH. reflexivity.
Qed.

Lemma scan_steps (steps : list (string * string)) :
  forall (acc : ParseResult) (lineNumber : nat),
    forallb accepted_step steps = true ->
    scan acc (flat_map (fun step => [fst step; snd step]) steps) lineNumber
    = fold_left
        (fun a step => BinaryExpressionNode (fst step) a (NumberNode (snd step)))
        steps acc.
Proof.
  induction steps as [|[op n] steps IH]; intros acc lineNumber Hall.
  - reflexivity.
  - cbn [forallb] in Hall. apply andb_true_iff in Hall.
    destruct Hall as [Hstep Hall]. unfold accepted_step in Hstep.
    cbn [fst snd] in Hstep. apply andb_true_iff in Hstep.
    destruct Hstep as [Hop Hn].
    cbn [flat_map app fst snd scan fold_left].
    rewrite Hop, (has_char_not_empty _ _ Hn), Hn. apply IH. exact Hall.
Qed.

Lemma scan_unparse (rtokens : list string) :
  forall (acc : ParseResult) (lineNumber : nat),
    number_or_binary (scan acc rtokens lineNumber) = true ->
    unparse (scan acc rtokens lineNumber) = rev rtokens ++ unparse acc.
Proof.
  induction rtokens as [|token|token nextToken rest IH] using pair_induction;
    intros acc lineNumber.
  - reflexivity.
  - cbn [scan]. destruct (has_char is_operation_char token); discriminate.
  - cbn [scan]. destruct (has_char is_operation_char token); [|discriminate].
    destruct (String.eqb nextToken ""); [discriminate|].
    destruct (has_char is_digit nextToken); [|discriminate].
    intros H. rewrite (IH _ _ H). cbn [unparse rev app].
    rewrite <- !app_assoc. reflexivity.
Qed.

Lemma scan_left_comb (rtokens : list string) :
  forall (acc : ParseResult) (lineNumber : nat),
    left_comb acc = true ->
    number_or_binary (scan acc rtokens lineNumber) = true ->
    left_comb (scan acc rtokens lineNumber) = true
    /\ List.length rtokens + 2 * operations acc
       = 2 * operations (scan acc rtokens lineNumber).
Proof.
  induction rtokens as [|token|token nextToken rest IH] using pair_induction;
    intros acc lineNumber Hacc.
  - intros _. split; [exact Hacc|reflexivity].
  - cbn [scan]. destruct (has_char is_operation_char token); discriminate.
  - cbn [scan]. destruct (has_char is_operation_char token); [|discriminate].
    destruct (String.eqb nextToken ""); [discriminate|].
    destruct (has_char is_digit nextToken); [|discriminate].
    intros H.
    destruct (IH (BinaryExpressionNode token acc (NumberNode nextToken))
                lineNumber Hacc H) as [Hc Hn].
    split; [exact Hc|]. rewrite <- Hn. cbn [operations List.length]. lia.
Qed.

(** A scan of an odd number of tokens ends with a diagnostic; a diagnostic
    of a scan has one of four shapes and the line number of the call. *)
Lemma scan_odd (rtokens : list string) :
  forall (acc : ParseResult) (lineNumber : nat),
    Nat.odd (List.length rtokens) = true ->
    isNode (scan acc rtokens lineNumber) = false.
Proof.
  induction rtokens as [|token|token nextToken rest IH] using pair_induction;
    intros acc lineNumber.
  - discriminate.
  - intros _. cbn [scan]. destruct (has_char is_operation_char token);
      reflexivity.
  - intros Hodd. cbn [scan].
    destruct (has_char is_operation_char token); [|reflexivity].
    destruct (String.eqb nextToken ""); [reflexivity|].
    destruct (has_char is_digit nextToken); [|reflexivity].
    apply IH. exact Hodd.
Qed.

Lemma diagnostic_shape_incl (tokens tokens' : list string) (lineNumber : nat)
  (o : ParseResult) :
  (forall t, In t tokens -> In t tokens') ->
  diagnostic_shape tokens lineNumber o -> diagnostic_shape tokens' lineNumber o.
Proof.
  intros Hin [(t & Ht & Hd & ->)|[(t & Ht & Hd & ->)|[->|[Ht ->]]]].
  - left. exists t. auto.
  - right. left. exists t. auto.
  - right. right. left. reflexivity.
  - right. right. right. auto.
Qed.

Lemma scan_diagnostic_shape (rtokens : list string) :
  forall (acc : ParseResult) (lineNumber : nat),
    number_or_binary acc = true ->
    isNode (scan acc rtokens lineNumber) = false ->
    diagnostic_shape rtokens lineNumber (scan acc rtokens lineNumber).
Proof.
  induction rtokens as [|token|token nextToken rest IH] using pair_induction;
    intros acc lineNumber Hacc.
  - cbn [scan]. rewrite (number_or_binary_isNode _ Hacc). discriminate.
  - intros _. cbn [scan].
    destruct (has_char is_operation_char token) eqn:Hop.
    + right. right. left. reflexivity.
    + right. left. exists token. repeat split; [left; reflexivity|exact Hop].
  - cbn [scan]. destruct (has_char is_operation_char token) eqn:Hop.
    + destruct (String.eqb nextToken "") eqn:He.
      * intros _. apply String.eqb_eq in He. subst nextToken.
        right. right. right. split; [right; left; reflexivity|reflexivity].
      * destruct (has_char is_digit nextToken) eqn:Hd.
        -- intros H. apply (diagnostic_shape_incl rest).
           ++ intros t Ht. right. right. exact Ht.
           ++ apply IH; [reflexivity|exact H].
        -- intros _. left. exists nextToken.
           repeat split; [right; left; reflexivity|exact Hd].
    + intros _. right. left. exists token.
      repeat split; [left; reflexivity|exact Hop].
Qed.

(** ** The tokens of a line, last first *)

Lemma scan_tokens_app_node (rt r2 : list string) (lineNumber : nat) :
  number_or_binary (scan_tokens rt lineNumber) = true ->
  scan_tokens (rt ++ r2) lineNumber
  = scan (scan_tokens rt lineNumber) r2 lineNumber.
Proof.
  destruct rt as [|token rest]; [discriminate|].
  cbn [scan_tokens app].
  destruct (match rest with [] => String.eqb token "" | _ => false end) eqn:Hv;
    [discriminate|].
  destruct (has_char is_digit token) eqn:Hd; [|discriminate].
  intros H.
  assert (Hv' : match rest ++ r2 with [] => String.eqb token "" | _ => false end
                = false).
  { destruct (rest ++ r2); [apply (has_char_not_empty _ _ Hd)|reflexivity]. }
  rewrite Hv'. apply scan_app_node. exact H.
Qed.

Lemma scan_tokens_app_diagnostic (rt r2 : list string) (lineNumber : nat)
  (e x t : string) (l : nat) :
  scan_tokens rt lineNumber = CompilerError e x (Some t) l ->
  scan_tokens (rt ++ r2) lineNumber = CompilerError e x (Some t) l.
Proof.
  destruct rt as [|token rest]; [discriminate|].
  cbn [scan_tokens app].
  destruct (match rest with [] => String.eqb token "" | _ => false end) eqn:Hv;
    [discriminate|].
  assert (Hv' : match rest ++ r2 with [] => String.eqb token "" | _ => false end
                = false).
  { destruct rest; [|reflexivity]. destruct r2; [exact Hv|reflexivity]. }
  rewrite Hv'. destruct (has_char is_digit token).
  - apply scan_app_diagnostic. reflexivity.
  - intros H. exact H.
Qed.

Lemma scan_tokens_cases (rt : list string) (lineNumber : nat) :
  scan_tokens rt lineNumber = VoidNode
  \/ (number_or_binary (scan_tokens rt lineNumber) = true
      /\ left_comb (scan_tokens rt lineNumber) = true
      /\ List.length rt = 2 * operations (scan_tokens rt lineNumber) + 1
      /\ unparse (scan_tokens rt lineNumber) = rev rt)
  \/ (isNode (scan_tokens rt lineNumber) = false
      /\ diagnostic_shape rt lineNumber (scan_tokens rt lineNumber)).
Proof.
  destruct rt as [|token rest]; [left; reflexivity|].
  cbn [scan_tokens].
  destruct (match rest with [] => String.eqb token "" | _ => false end);
    [left; reflexivity|].
  right. destruct (has_char is_digit token) eqn:Hd.
  - destruct (scan_number_or_diagnostic rest (NumberNode token) lineNumber
                eq_refl) as [Hn|Hn].
    + left. split; [exact Hn|].
      destruct (scan_left_comb rest (NumberNode token) lineNumber eq_refl Hn)
        as [Hc Hl].
      split; [exact Hc|]. split.
      * cbn [List.length operations] in *. lia.
      * rewrite (scan_unparse _ _ _ Hn). reflexivity.
    + right. split; [exact Hn|].
      apply (diagnostic_shape_incl rest).
      * intros t Ht. right. exact Ht.
      * apply scan_diagnostic_shape; [reflexivity|exact Hn].
  - right. split; [reflexivity|]. left. exists token.
    repeat split; [left; reflexivity|exact Hd].
Qed.

Lemma scan_tokens_line_of (n0 : string) (steps : list (string * string))
  (lineNumber : nat) :
  has_char is_digit n0 = true ->
  forallb accepted_step steps = true ->
  scan_tokens (rev (line_of n0 steps)) lineNumber = tree_of n0 steps.
Proof.
  intros H0 Hsteps. unfold line_of, tree_of.
  rewrite rev_involutive. cbn [scan_tokens].
  assert (Hv : match flat_map (fun step => [fst step; snd step]) steps with
               | [] => String.eqb n0 ""
               | _ => false
               end = false).
  { destruct (flat_map _ steps); [apply (has_char_not_empty _ _ H0)|reflexivity]. }
  rewrite Hv, H0. apply scan_steps. exact Hsteps.
Qed.

Lemma accepted_symbol_steps (steps : list (operator * string)) :
  forallb (fun step => has_char is_digit (snd step)) steps = true ->
  forallb accepted_step
    (map (fun step => (symbol (fst step), snd step)) steps) = true.
Proof.
  induction steps as [|[o n] steps IH]; [reflexivity|].
  cbn [map forallb fst snd]. intros Hsteps. apply andb_true_iff in Hsteps.
  destruct Hsteps as [Hn Hsteps]. rewrite (IH Hsteps), andb_true_r.
  unfold accepted_step. cbn [fst snd]. rewrite symbol_test, Hn. reflexivity.
Qed.

(** ** The separator of the lexer *)

Lemma bt_star_space (s : string) :
  bt (Star WhiteSpace) s (fun rest => Some rest) = Some (trimStart s).
Proof.
  cbn [bt].
  match goal with
  | |- ?f (String.length s) s = _ =>
      enough (H : forall n s', String.length s' <= n ->
                               f n s' = Some (trimStart s'))
        by (apply H; apply le_n)
  end.
  induction n as [|n IH]; intros s' Hlen.
  - destruct s'; [reflexivity|simpl in Hlen; lia].
  - destruct s' as [|c t]; [reflexivity|].
    cbn [trimStart]. destruct (is_space c); [|reflexivity].
    cbn [String.length].
    rewrite (proj2 (Nat.ltb_lt (String.length t) (S (String.length t))))
      by lia.
    rewrite IH by (simpl in Hlen; lia). reflexivity.
Qed.

Lemma match_at_space (c : ascii) (s : string) :
  match_at (Plus WhiteSpace) (String c s)
  = if is_space c then Some (trimStart s) else None.
Proof.
  unfold match_at, Plus. cbn [bt]. destruct (is_space c); [|reflexivity].
  apply bt_star_space.
Qed.

Lemma length_trimStart (s : string) :
  String.length s = leading_space s + String.length (trimStart s).
Proof.
  induction s as [|c s IH]; [reflexivity|].
  cbn [leading_space trimStart]. destruct (is_space c).
  - cbn [String.length Nat.add]. rewrite IH. reflexivity.
  - reflexivity.
Qed.

(** One step of [split] with the separator of the lexer: a white-space
    character closes the piece and the white space after it is passed; any
    other character joins the piece. *)
Lemma split_loop_space (c : ascii) (s cur : string) :
  split_loop (Plus WhiteSpace) 0 cur (String c s)
  = if is_space c
    then rev_string "" cur
           :: split_loop (Plus WhiteSpace) (leading_space s) "" s
    else split_loop (Plus WhiteSpace) 0 (String c cur) s.
Proof.
  cbn [split_loop]. rewrite match_at_space. destruct (is_space c); [|reflexivity].
  cbn [String.length]. rewrite (length_trimStart s) at 1.
  replace (S (leading_space s + String.length (trimStart s))
           - String.length (trimStart s)) with (S (leading_space s)) by lia.
  reflexivity.
Qed.

Lemma has_char_rev_string (p : ascii -> bool) (s acc : string) :
  has_char p (rev_string acc s) = has_char p s || has_char p acc.
Proof.
  revert acc. induction s as [|c s IH]; intros acc; [reflexivity|].
  cbn [rev_string has_char]. rewrite IH. cbn [has_char].
  destruct (p c), (has_char p s), (has_char p acc); reflexivity.
Qed.

(** No piece has white space. *)
Lemma split_loop_no_space (s : string) :
  forall (skip : nat) (cur : string),
    has_char is_space cur = false ->
    Forall (fun t => has_char is_space t = false)
      (split_loop (Plus WhiteSpace) skip cur s).
Proof.
  induction s as [|c s IH]; intros skip cur Hcur.
  - cbn [split_loop]. constructor; [|constructor].
    rewrite has_char_rev_string, Hcur. reflexivity.
  - destruct skip as [|skip].
    + rewrite split_loop_space. destruct (is_space c) eqn:Hc.
      * constructor.
        -- rewrite has_char_rev_string, Hcur. reflexivity.
        -- apply IH. reflexivity.
      * apply IH. cbn [has_char]. rewrite Hc, Hcur. reflexivity.
    + cbn [split_loop]. apply IH. exact Hcur.
Qed.

Lemma ends_without_space_tail (c : ascii) (s : string) :
  ends_without_space (String c s) = true ->
  ends_without_space s = true /\ (is_space c = true -> s <> "").
Proof.
  cbn [ends_without_space]. destruct s as [|c' s'].
  - intros H. split; [reflexivity|]. intros Hc. rewrite Hc in H. discriminate.
  - intros H. split; [exact H|]. discriminate.
Qed.

(** A piece is empty only where the string starts or ends with white
    space. *)
Lemma split_loop_not_empty (s : string) :
  forall (skip : nat) (cur : string),
    ends_without_space s = true ->
    (skip = 0 /\ cur <> "") \/ (skip = leading_space s /\ s <> "") ->
    Forall (fun t => t <> "") (split_loop (Plus WhiteSpace) skip cur s).
Proof.
  induction s as [|c s IH]; intros skip cur Hend Hinv.
  - destruct Hinv as [[_ Hcur]|[_ Hs]]; [|contradiction].
    cbn [split_loop]. constructor; [|constructor].
    destruct cur as [|a cur]; [contradiction|].
    cbn [rev_string]. apply rev_string_not_empty. discriminate.
  - destruct (ends_without_space_tail c s Hend) as [Hend' Hs].
    assert (Hstep : skip = 0 \/ (is_space c = true /\ skip = S (leading_space s))).
    { destruct Hinv as [[-> _]|[-> _]]; [left; reflexivity|].
      cbn [leading_space]. destruct (is_space c); [right; split|left];
        reflexivity. }
    destruct Hstep as [->|[Hc ->]].
    + rewrite split_loop_space. destruct (is_space c) eqn:Hc.
      * destruct Hinv as [[_ Hcur]|[Hl _]].
        -- constructor.
           ++ destruct cur as [|a cur]; [contradiction|].
              cbn [rev_string]. apply rev_string_not_empty. discriminate.
           ++ apply IH; [exact Hend'|]. right.
              split; [reflexivity|apply Hs; reflexivity].
        -- cbn [leading_space] in Hl. rewrite Hc in Hl. discriminate.
      * apply IH; [exact Hend'|]. left. split; [reflexivity|discriminate].
    + cbn [split_loop]. apply IH; [exact Hend'|]. right.
      split; [reflexivity|apply Hs; exact Hc].
Qed.

Lemma trimEnd_ends_without_space (s : string) :
  ends_without_space (trimEnd s) = true.
Proof.
  induction s as [|c s IH]; [reflexivity|].
  cbn [trimEnd]. destruct (trimEnd s) as [|c' t] eqn:E.
  - destruct (is_space c) eqn:Hc; [reflexivity|].
    cbn [ends_without_space]. rewrite Hc. reflexivity.
  - exact IH.
Qed.

(** The tokens [compile] gives the parser for a line: the one empty token
    of a blank line, or tokens that have a character and no white space. *)
Lemma lexer_trim_tokens (line : string) :
  if all_space line then lexer (trim line) = [""]
  else forallb clean_token (lexer (trim line)) = true
       /\ no_tokens (lexer (trim line)) = false.
Proof.
  destruct (all_space line) eqn:Hs.
  - rewrite (trim_all_space _ Hs). reflexivity.
  - destruct (trim_head _ Hs) as (c & s & E & Hc).
    assert (Hend : ends_without_space (String c s) = true).
    { rewrite <- E. apply trimEnd_ends_without_space. }
    rewrite E. split.
    + apply forallb_forall. intros t Ht. unfold clean_token.
      unfold lexer, split in Ht.
      assert (H1 := split_loop_no_space (String c s) 0 "" eq_refl).
      assert (H2 := split_loop_not_empty (String c s) 0 "" Hend).
      rewrite Forall_forall in H1.
      rewrite (H1 t Ht). rewrite Forall_forall in H2.
      assert (Hne : t <> "").
      { apply H2; [|exact Ht]. right.
        split; [cbn [leading_space]; rewrite Hc; reflexivity|discriminate]. }
      apply String.eqb_neq in Hne. rewrite Hne. reflexivity.
    + destruct (lexer_head c s Hc) as (x & rest & -> & Hx).
      apply no_tokens_head. exact Hx.
Qed.

Lemma append_empty (s : string) : (s ++ "")%string = s.
Proof. induction s as [|c s IH]; [reflexivity|]. simpl. rewrite IH. reflexivity. Qed.

Lemma rev_string_twice (s a b : string) :
  rev_string a (rev_string b s) = rev_string (s ++ a)%string b.
Proof.
  revert a b. induction s as [|c s IH]; intros a b; [reflexivity|].
  cbn [rev_string]. rewrite IH. reflexivity.
Qed.

(** A token without white space joins the piece whole. *)
Lemma split_loop_token (t s cur : string) :
  has_char is_space t = false ->
  split_loop (Plus WhiteSpace) 0 cur (t ++ s)%string
  = split_loop (Plus WhiteSpace) 0 (rev_string cur t) s.
Proof.
  revert cur. induction t as [|c t IH]; intros cur Ht; [reflexivity|].
  cbn [has_char] in Ht. apply orb_false_elim in Ht. destruct Ht as [Hc Ht].
  cbn [String.append]. rewrite split_loop_space, Hc. cbn [rev_string].
  apply IH. exact Ht.
Qed.

Lemma clean_token_head (t : string) :
  clean_token t = true ->
  has_char is_space t = false
  /\ exists c t', t = String c t' /\ is_space c = false.
Proof.
  unfold clean_token. intros H. apply andb_true_iff in H.
  destruct H as [Hne Hsp]. apply negb_true_iff in Hsp. split; [exact Hsp|].
  destruct t as [|c t']; [discriminate|]. exists c, t'.
  split; [reflexivity|]. cbn [has_char] in Hsp.
  apply orb_false_elim in Hsp. apply Hsp.
Qed.

Lemma split_loop_concat (ts : list string) :
  forall (t cur : string),
    forallb clean_token (t :: ts) = true ->
    split_loop (Plus WhiteSpace) 0 cur (String.concat " " (t :: ts))
    = rev_string "" (rev_string cur t) :: ts.
Proof.
  induction ts as [|t' ts IH]; intros t cur Hall;
    cbn [forallb] in Hall; apply andb_true_iff in Hall;
    destruct Hall as [Ht Hall]; destruct (clean_token_head _ Ht) as [Hsp _].
  - cbn [String.concat]. rewrite <- (append_empty t) at 1.
    rewrite (split_loop_token _ _ _ Hsp). reflexivity.
  - change (String.concat " " (t :: t' :: ts))
      with (t ++ String " " (String.concat " " (t' :: ts)))%string.
    rewrite (split_loop_token _ _ _ Hsp), split_loop_space.
    change (is_space " ") with true. cbv iota. f_equal.
    assert (Hlead : leading_space (String.concat " " (t' :: ts)) = 0).
    { cbn [forallb] in Hall. apply andb_true_iff in Hall.
      destruct Hall as [Ht' _].
      destruct (clean_token_head _ Ht') as (_ & c & t0 & -> & Hc).
      destruct ts; cbn [String.concat String.append leading_space];
        rewrite Hc; reflexivity. }
    rewrite Hlead, (IH t' "" Hall). cbn [rev_string].
    rewrite rev_string_twice, append_empty. reflexivity.
Qed.

(** ** The lines of a document *)

Lemma split_on_app (sep : ascii) (a b : string) :
  forall cur,
    split_on sep cur (a ++ String sep b)%string
    = split_on sep cur a ++ split_on sep "" b.
Proof.
  induction a as [|c a IH]; intros cur.
  - cbn [String.append split_on app]. rewrite Ascii.eqb_refl. reflexivity.
  - cbn [String.append split_on]. destruct (Ascii.eqb c sep).
    + cbn [app]. rewrite IH. reflexivity.
    + apply IH.
Qed.

Lemma map_from_compile_line (l : list string) :
  forall (index : nat) (h : Heap),
  exists stack,
    map_from compile_line index l h = (Normal stack, h)
    /\ List.length stack = List.length l
    /\ forall i line,
         nth_error l i = Some line ->
         exists o,
           compile_line line (index + i) h = (Normal (Some o), h)
           /\ nth_error stack i = Some (Some o).
Proof.
  induction l as [|line0 l IH]; intros index h.
  - exists []. split; [reflexivity|]. split; [reflexivity|].
    intros [|i] line E; discriminate.
  - destruct (compile_line_cases line0 index h) as (o0 & H0 & _).
    destruct (IH (S index) h) as (stack & Hs & Hlen & Hnth).
    exists (Some o0 :: stack). split; [|split].
    + cbn [map_from]. unfold bind. rewrite H0, Hs. reflexivity.
    + cbn [List.length]. rewrite Hlen. reflexivity.
    + intros [|i] line E.
      * inversion E; subst line. exists o0. rewrite Nat.add_0_r.
        split; [exact H0|reflexivity].
      * destruct (Hnth i line E) as (o & Ho & Hn). exists o.
        rewrite Nat.add_succ_r. split; [exact Ho|exact Hn].
Qed.

Lemma map_from_app_compile_line (l1 l2 : list string) :
  forall (index : nat) (h : Heap) (s1 s2 : list (option ParseResult)),
    map_from compile_line index l1 h = (Normal s1, h) ->
    map_from compile_line (index + List.length l1) l2 h = (Normal s2, h) ->
    map_from compile_line index (l1 ++ l2) h = (Normal (s1 ++ s2), h).
Proof.
  induction l1 as [|line l1 IH]; intros index h s1 s2 H1 H2.
  - cbn [map_from] in H1. inversion H1; subst s1.
    cbn [app List.length] in *. rewrite Nat.add_0_r in H2. exact H2.
  - destruct (compile_line_cases line index h) as (o & Ho & _).
    destruct (map_from_compile_line l1 (S index) h) as (stack & Hs & _ & _).
    cbn [map_from] in H1. unfold bind in H1. rewrite Ho, Hs in H1.
    cbn [ret] in H1. inversion H1; subst s1.
    cbn [app map_from]. unfold bind. rewrite Ho.
    rewrite (IH (S index) h stack s2 Hs).
    + reflexivity.
    + cbn [List.length] in H2. rewrite Nat.add_succ_r in H2. exact H2.
Qed.

Lemma parseExpression_diagnostic_shape (tokens : list string) (r : ParseResult)
  (lineNumber : nat) (h : Heap) :
  parseExpression tokens lineNumber h = (Normal (Some r), h) ->
  isNode r = false ->
  diagnostic_shape tokens lineNumber r.
Proof.
  intros Hp Hr. rewrite parseExpression_scan in Hp. inversion Hp as [Hscan].
  subst r.
  destruct (scan_tokens_cases (rev tokens) lineNumber)
    as [Hv|[(Hn & _)|(_ & Hshape)]].
  - rewrite Hv in Hr. discriminate.
  - rewrite (number_or_binary_isNode _ Hn) in Hr. discriminate.
  - apply (diagnostic_shape_incl (rev tokens)); [|exact Hshape].
    intros t Ht. apply in_rev. exact Ht.
Qed.

Lemma append_associative (a b c : string) :
  ((a ++ b) ++ c = a ++ (b ++ c))%string.
Proof.
  induction a as [|x a IH]; [reflexivity|]. simpl. rewrite IH. reflexivity.
Qed.

Lemma rev_string_acc (s acc : string) :
  rev_string acc s = (rev_string "" s ++ acc)%string.
Proof.
  revert acc. induction s as [|c s IH]; intros acc; [reflexivity|].
  cbn [rev_string]. rewrite (IH (String c acc)), (IH (String c "")).
  rewrite append_associative. reflexivity.
Qed.

Lemma split_on_cons (sep : ascii) (s cur : string) :
  exists x rest, split_on sep cur s = x :: rest.
Proof.
  revert cur. induction s as [|c s IH]; intros cur; cbn [split_on].
  - eexists. eexists. reflexivity.
  - destruct (Ascii.eqb c sep); [eexists; eexists; reflexivity|apply IH].
Qed.

Lemma concat_split_on (sep : ascii) (s : string) :
  forall cur,
    String.concat (String sep "") (split_on sep cur s)
    = (rev_string "" cur ++ s)%string.
Proof.
  induction s as [|c s IH]; intros cur.
  - cbn [split_on String.concat]. rewrite append_empty. reflexivity.
  - cbn [split_on]. destruct (Ascii.eqb c sep) eqn:E.
    + apply Ascii.eqb_eq in E. subst c.
      destruct (split_on_cons sep s "") as (x & rest & Hx).
      assert (IH' := IH ""). rewrite Hx in *.
      change (String.concat (String sep "") (rev_string "" cur :: x :: rest))
        with (rev_string "" cur
              ++ String sep "" ++ String.concat (String sep "") (x :: rest))%string.
      rewrite IH'. reflexivity.
    + rewrite IH. cbn [rev_string]. rewrite (rev_string_acc cur (String c "")).
      rewrite append_associative. reflexivity.
Qed.

(** * Further properties *)

(** X1.  [NUMBER_REGEX.test(s)] holds exactly when [s] has a decimal digit
    somewhere, whatever [lastIndex] is, and it leaves [lastIndex] as it
    is. *)
Theorem NUMBER_REGEX_test_digit (lastIndex : nat) (s : string) :
  JSRegExp.test NUMBER_REGEX lastIndex s = (has_char is_digit s, lastIndex).
Proof.
  rewrite test_no_flag by reflexivity. f_equal.
  destruct (exec_from (source NUMBER_REGEX) false s 0) eqn:E;
    destruct (has_char is_digit s) eqn:D; try reflexivity.
  - apply (proj2 (exec_from_number s 0)) in D. congruence.
  - apply (proj1 (exec_from_number s 0)) in E. congruence.
Qed.

(** X2.  [OPERATION_REGEX.test(s)] holds exactly when [s] has one of the
    characters [+], [-], [*], [/] somewhere, whatever [lastIndex] is, and it
    leaves [lastIndex] as it is. *)
Theorem OPERATION_REGEX_test_char (lastIndex : nat) (s : string) :
  JSRegExp.test OPERATION_REGEX lastIndex s
  = (has_char is_operation_char s, lastIndex).
Proof.
  rewrite test_no_flag by reflexivity. f_equal.
  destruct (exec_from (source OPERATION_REGEX) false s 0) eqn:E;
    destruct (has_char is_operation_char s) eqn:D; try reflexivity.
  - apply (proj2 (exec_from_operation s 0)) in D. congruence.
  - apply (proj1 (exec_from_operation s 0)) in E. congruence.
Qed.

(** X3.  A line of any length whose tokens alternate numeral, operator,
    ..., numeral (each numeral with a digit, each operator with one of the
    four characters) parses to the tree that nests to the left from the
    right end of the line: the last numeral is the innermost left operand
    and every numeral further to the left is a right operand. *)
Theorem well_formed_line_tree (n0 : string) (steps : list (string * string))
  (lineNumber : nat) (h : Heap) :
  has_char is_digit n0 = true ->
  forallb accepted_step steps = true ->
  parseExpression (line_of n0 steps) lineNumber h
  = (Normal (Some (tree_of n0 steps)), h).
Proof.
  intros H0 Hsteps.
  rewrite parseExpression_scan, (scan_tokens_line_of _ _ _ H0 Hsteps).
  reflexivity.
Qed.

(** The line "8 - 2 / 4 * 3": the tree is ((3 * 4) / 2) - 8. *)
Lemma well_formed_line_tree_witness :
  parseExpression ["8"; "-"; "2"; "/"; "4"; "*"; "3"] 1 initial_heap
  = (Normal
       (Some
          (BinaryExpressionNode "-"
             (BinaryExpressionNode "/"
                (BinaryExpressionNode "*" (NumberNode "3") (NumberNode "4"))
                (NumberNode "2"))
             (NumberNode "8"))),
     initial_heap).
Proof.
  exact (well_formed_line_tree "3" [("*", "4"); ("/", "2"); ("-", "8")] 1
           initial_heap eq_refl eq_refl).
Defined.

(** X4.  The value of such a line, when its operators are the four symbols,
    is the fold of the operations from the right end of the line, without
    precedence: the value so far is the left argument of each operation and
    the next numeral to the left the right argument. *)
Theorem well_formed_line_value `{JSArith} (n0 : string)
  (steps : list (operator * string)) (lineNumber : nat) (h : Heap) :
  has_char is_digit n0 = true ->
  forallb (fun step => has_char is_digit (snd step)) steps = true ->
  exists r,
    parseExpression
      (line_of n0 (map (fun step => (symbol (fst step), snd step)) steps))
      lineNumber h
    = (Normal (Some r), h)
    /\ value r
       = fold_left
           (fun v step => arith (fst step) v (JSNumber (Number (snd step))))
           steps (JSNumber (Number n0)).
Proof.
  intros H0 Hsteps. eexists. split.
  - rewrite parseExpression_scan,
      (scan_tokens_line_of _ _ _ H0 (accepted_symbol_steps _ Hsteps)).
    reflexivity.
  - unfold tree_of. clear H0 Hsteps.
    change (JSNumber (Number n0)) with (value (NumberNode n0)).
    generalize (NumberNode n0) as acc.
    induction steps as [|[o n] steps IH]; intros acc; [reflexivity|].
    cbn [map fold_left fst snd]. rewrite IH. f_equal.
    destruct o; reflexivity.
Qed.

(** The line "10 - 2 / 4" of the specification: its value is (4 / 2) - 10. *)
Lemma well_formed_line_value_witness :
  exists r,
    parseExpression ["10"; "-"; "2"; "/"; "4"] 1 initial_heap
    = (Normal (Some r), initial_heap)
    /\ value (H := Symbolic.arithmetic) r
       = JSNumber
           (Symbolic.EBinary OpSub
              (JSNumber
                 (Symbolic.EBinary OpDiv (JSNumber (Symbolic.ENumber "4"))
                    (JSNumber (Symbolic.ENumber "2"))))
              (JSNumber (Symbolic.ENumber "10"))).
Proof.
  exact (@well_formed_line_value Symbolic.arithmetic "4"
           [(OpDiv, "2"); (OpSub, "10")] 1 initial_heap eq_refl eq_refl).
Defined.

(** X5.  Extension to the left.  When a line parses to a tree, the line with
    a numeral and an operator put in front of it parses to the
    BINARY_EXPRESSION of that operator whose left operand is the tree of the
    old line and whose right operand is the new numeral. *)
Theorem left_extension (tokens : list string) (op n : string)
  (r : ParseResult) (lineNumber : nat) (h : Heap) :
  parseExpression tokens lineNumber h = (Normal (Some r), h) ->
  number_or_binary r = true ->
  has_char is_operation_char op = true ->
  has_char is_digit n = true ->
  parseExpression (n :: op :: tokens) lineNumber h
  = (Normal (Some (BinaryExpressionNode op r (NumberNode n))), h).
Proof.
  intros Hp Hr Hop Hn. rewrite parseExpression_scan in Hp.
  inversion Hp as [Hscan]. rewrite parseExpression_scan.
  cbn [rev]. rewrite <- app_assoc. cbn [app].
  rewrite scan_tokens_app_node by (rewrite Hscan; exact Hr).
  rewrite Hscan. cbn [scan].
  rewrite Hop, (has_char_not_empty _ _ Hn), Hn. reflexivity.
Qed.

(** From "2 * 3" to "1 + 2 * 3". *)
Lemma left_extension_witness :
  parseExpression ["1"; "+"; "2"; "*"; "3"] 1 initial_heap
  = (Normal
       (Some
          (BinaryExpressionNode "+"
             (BinaryExpressionNode "*" (NumberNode "3") (NumberNode "2"))
             (NumberNode "1"))),
     initial_heap).
Proof.
  exact (left_extension ["2"; "*"; "3"] "+" "1"
           (BinaryExpressionNode "*" (NumberNode "3") (NumberNode "2")) 1
           initial_heap eq_refl eq_refl eq_refl eq_refl).
Defined.

(** X6.  No token is lost or changed: when a line parses to a tree, reading
    the tree back (right operand, operator, left operand) gives the tokens
    of the line, in order. *)
Theorem unparse_parseExpression (tokens : list string) (r : ParseResult)
  (lineNumber : nat) (h : Heap) :
  parseExpression tokens lineNumber h = (Normal (Some r), h) ->
  number_or_binary r = true ->
  unparse r = tokens.
Proof.
  intros Hp Hr. rewrite parseExpression_scan in Hp. inversion Hp as [Hscan].
  subst r.
  destruct (scan_tokens_cases (rev tokens) lineNumber)
    as [Hv|[(_ & _ & _ & Hu)|(Hd & _)]].
  - rewrite Hv in Hr. discriminate.
  - rewrite Hu. apply rev_involutive.
  - rewrite (number_or_binary_isNode _ Hr) in Hd. discriminate.
Qed.

Lemma unparse_parseExpression_witness :
  unparse
    (BinaryExpressionNode "+"
       (BinaryExpressionNode "*" (NumberNode "3") (NumberNode "2"))
       (NumberNode "1"))
  = ["1"; "+"; "2"; "*"; "3"].
Proof.
  exact (unparse_parseExpression ["1"; "+"; "2"; "*"; "3"] _ 1 initial_heap
           eq_refl eq_refl).
Defined.

(** X7.  The shape of every result.  [parseExpression] returns the VOID
    node, a diagnostic, or a tree in which every right operand is a NUMBER
    node and the innermost left operand is a NUMBER node; such a tree has
    one BINARY_EXPRESSION node for every two tokens after the first, and no
    VOID node or diagnostic inside it. *)
Theorem result_shape (tokens : list string) (lineNumber : nat) (h : Heap) :
  exists r,
    parseExpression tokens lineNumber h = (Normal (Some r), h)
    /\ (r = VoidNode
        \/ isNode r = false
        \/ (left_comb r = true
            /\ List.length tokens = 2 * operations r + 1)).
Proof.
  exists (scan_tokens (rev tokens) lineNumber).
  split; [apply parseExpression_scan|].
  destruct (scan_tokens_cases (rev tokens) lineNumber)
    as [Hv|[(_ & Hc & Hl & _)|(Hd & _)]].
  - left. exact Hv.
  - right. right. split; [exact Hc|]. rewrite <- Hl. symmetry. apply length_rev.
  - right. left. exact Hd.
Qed.

(** X8.  A line with an even number of tokens, two or more, never parses:
    the result is a diagnostic. *)
Theorem even_line_is_diagnostic (tokens : list string) (lineNumber : nat)
  (h : Heap) :
  tokens <> [] ->
  Nat.even (List.length tokens) = true ->
  exists r,
    parseExpression tokens lineNumber h = (Normal (Some r), h)
    /\ type r = "ERROR".
Proof.
  intros Hne Heven. exists (scan_tokens (rev tokens) lineNumber).
  split; [apply parseExpression_scan|].
  destruct (scan_tokens_cases (rev tokens) lineNumber)
    as [Hv|[(_ & _ & Hl & _)|(Hd & _)]].
  - exfalso. destruct (rev tokens) as [|t [|t' rest]] eqn:E.
    + apply Hne. rewrite <- (rev_involutive tokens), E. reflexivity.
    + rewrite <- (length_rev tokens), E in Heven. discriminate.
    + cbn [scan_tokens] in Hv.
      destruct (has_char is_digit t).
      * destruct (scan_number_or_diagnostic (t' :: rest) (NumberNode t)
                    lineNumber eq_refl) as [H|H]; rewrite Hv in H; discriminate.
      * discriminate.
  - exfalso. rewrite length_rev in Hl. rewrite Hl in Heven.
    rewrite Nat.add_1_r, Nat.even_succ, Nat.odd_mul in Heven.
    discriminate.
  - destruct (scan_tokens (rev tokens) lineNumber); try discriminate.
    reflexivity.
Qed.

(** The line "1 + 2 *". *)
Lemma even_line_is_diagnostic_witness :
  exists r,
    parseExpression ["1"; "+"; "2"; "*"] 1 initial_heap
    = (Normal (Some r), initial_heap)
    /\ type r = "ERROR".
Proof.
  apply (even_line_is_diagnostic ["1"; "+"; "2"; "*"] 1 initial_heap).
  - discriminate.
  - reflexivity.
Defined.

(** X9.  The line must end with a numeral: when the last token of a line
    that is not blank has no digit, the result is the INVALID_TOKEN
    diagnostic about that token, expecting "a number literal", whatever
    stands to its left. *)
Theorem last_token_without_digit (init : list string) (t : string)
  (lineNumber : nat) (h : Heap) :
  has_char is_digit t = false ->
  no_tokens (init ++ [t]) = false ->
  parseExpression (init ++ [t]) lineNumber h
  = (Normal
       (Some
          (CompilerError COMPILER_ERRORS.INVALID_TOKEN "a number literal"
             (Some t) lineNumber)),
     h).
Proof.
  intros Hd Hno. rewrite parseExpression_scan, rev_app_distr.
  cbn [rev app scan_tokens]. rewrite no_tokens_snoc in Hno.
  assert (Hv : match rev init with [] => String.eqb t "" | _ => false end = false).
  { destruct init as [|a init]; [exact Hno|].
    cbn [rev]. destruct (rev init); reflexivity. }
  rewrite Hv, Hd. reflexivity.
Qed.

(** The line "1 +" of the sample document. *)
Lemma last_token_without_digit_witness :
  parseExpression ["1"; "+"] 9 initial_heap
  = (Normal
       (Some
          (CompilerError COMPILER_ERRORS.INVALID_TOKEN "a number literal"
             (Some "+") 9)),
     initial_heap).
Proof.
  exact (last_token_without_digit ["1"] "+" 9 initial_heap eq_refl eq_refl).
Defined.

(** X10.  A missing operator.  When a line parses to a tree and the token
    put in front of it has none of the four characters, the result is the
    INVALID_TOKEN diagnostic about that token, expecting "an operation
    token", whatever stands further to the left; two expressions side by
    side are reported this way, not as MULTIPLE_EXPRESSIONS. *)
Theorem missing_operator (more tokens : list string) (t : string)
  (r : ParseResult) (lineNumber : nat) (h : Heap) :
  parseExpression tokens lineNumber h = (Normal (Some r), h) ->
  number_or_binary r = true ->
  has_char is_operation_char t = false ->
  parseExpression (more ++ t :: tokens) lineNumber h
  = (Normal
       (Some
          (CompilerError COMPILER_ERRORS.INVALID_TOKEN "an operation token"
             (Some t) lineNumber)),
     h).
Proof.
  intros Hp Hr Ht. rewrite parseExpression_scan in Hp.
  inversion Hp as [Hscan]. rewrite parseExpression_scan, rev_app_distr.
  cbn [rev]. rewrite <- !app_assoc. cbn [app].
  rewrite scan_tokens_app_node by (rewrite Hscan; exact Hr).
  rewrite Hscan. cbn [scan]. rewrite Ht. reflexivity.
Qed.

(** The line "1 + 2 3 * 4". *)
Lemma missing_operator_witness :
  parseExpression ["1"; "+"; "2"; "3"; "*"; "4"] 1 initial_heap
  = (Normal
       (Some
          (CompilerError COMPILER_ERRORS.INVALID_TOKEN "an operation token"
             (Some "2") 1)),
     initial_heap).
Proof.
  exact (missing_operator ["1"; "+"] ["3"; "*"; "4"] "2"
           (BinaryExpressionNode "*" (NumberNode "4") (NumberNode "3")) 1
           initial_heap eq_refl eq_refl eq_refl).
Defined.

(** X11.  An operator at the start.  When a line parses to a tree, the line
    with an operator token put in front of it gives the
    INCOMPLETE_EXPRESSION diagnostic, whose offending token is
    [undefined]. *)
Theorem operator_at_start (tokens : list string) (op : string)
  (r : ParseResult) (lineNumber : nat) (h : Heap) :
  parseExpression tokens lineNumber h = (Normal (Some r), h) ->
  number_or_binary r = true ->
  has_char is_operation_char op = true ->
  parseExpression (op :: tokens) lineNumber h
  = (Normal
       (Some
          (CompilerError COMPILER_ERRORS.INCOMPLETE_EXPRESSION
             "a number literal" None lineNumber)),
     h).
Proof.
  intros Hp Hr Hop. rewrite parseExpression_scan in Hp.
  inversion Hp as [Hscan]. rewrite parseExpression_scan. cbn [rev].
  rewrite scan_tokens_app_node by (rewrite Hscan; exact Hr).
  rewrite Hscan. cbn [scan]. rewrite Hop. reflexivity.
Qed.

(** The line "- 1 + 2". *)
Lemma operator_at_start_witness :
  parseExpression ["-"; "1"; "+"; "2"] 1 initial_heap
  = (Normal
       (Some
          (CompilerError COMPILER_ERRORS.INCOMPLETE_EXPRESSION
             "a number literal" None 1)),
     initial_heap).
Proof.
  exact (operator_at_start ["1"; "+"; "2"] "-"
           (BinaryExpressionNode "+" (NumberNode "2") (NumberNode "1")) 1
           initial_heap eq_refl eq_refl eq_refl).
Defined.

(** X12.  An operand without a digit.  When a line parses to a tree, the
    line with an operator token and, to the left of it, a token that is not
    empty and has no digit gives the INVALID_TOKEN diagnostic about that
    token, expecting "a number literal", whatever stands further to the
    left. *)
Theorem operand_without_digit (more tokens : list string) (n op : string)
  (r : ParseResult) (lineNumber : nat) (h : Heap) :
  parseExpression tokens lineNumber h = (Normal (Some r), h) ->
  number_or_binary r = true ->
  has_char is_operation_char op = true ->
  n <> "" ->
  has_char is_digit n = false ->
  parseExpression (more ++ n :: op :: tokens) lineNumber h
  = (Normal
       (Some
          (CompilerError COMPILER_ERRORS.INVALID_TOKEN "a number literal"
             (Some n) lineNumber)),
     h).
Proof.
  intros Hp Hr Hop Hne Hn. rewrite parseExpression_scan in Hp.
  inversion Hp as [Hscan]. rewrite parseExpression_scan, rev_app_distr.
  cbn [rev]. rewrite <- !app_assoc. cbn [app].
  rewrite scan_tokens_app_node by (rewrite Hscan; exact Hr).
  rewrite Hscan. cbn [scan]. apply String.eqb_neq in Hne.
  rewrite Hop, Hne, Hn. reflexivity.
Qed.

(** The line "/ + 1" of the sample document. *)
Lemma operand_without_digit_witness :
  parseExpression ["/"; "+"; "1"] 8 initial_heap
  = (Normal
       (Some
          (CompilerError COMPILER_ERRORS.INVALID_TOKEN "a number literal"
             (Some "/") 8)),
     initial_heap).
Proof.
  refine (operand_without_digit [] ["1"] "/" "+" (NumberNode "1") 8
            initial_heap eq_refl eq_refl eq_refl _ eq_refl).
  discriminate.
Defined.

(** X13.  The first error from the right is final: when a line gives a
    diagnostic about a token, every line that has more tokens to the left
    of it gives the same diagnostic. *)
Theorem diagnostic_is_stable (more tokens : list string) (e x t : string)
  (l lineNumber : nat) (h : Heap) :
  parseExpression tokens lineNumber h
  = (Normal (Some (CompilerError e x (Some t) l)), h) ->
  parseExpression (more ++ tokens) lineNumber h
  = (Normal (Some (CompilerError e x (Some t) l)), h).
Proof.
  intros Hp. rewrite parseExpression_scan in Hp. inversion Hp as [Hscan].
  rewrite parseExpression_scan, rev_app_distr.
  rewrite (scan_tokens_app_diagnostic _ _ _ _ _ _ _ Hscan), Hscan.
  reflexivity.
Qed.

(** From "1 +" to "7 * 1 +". *)
Lemma diagnostic_is_stable_witness :
  parseExpression ["7"; "*"; "1"; "+"] 2 initial_heap
  = (Normal
       (Some
          (CompilerError COMPILER_ERRORS.INVALID_TOKEN "a number literal"
             (Some "+") 2)),
     initial_heap).
Proof.
  exact (diagnostic_is_stable ["7"; "*"] ["1"; "+"] _ _ _ 2 2 initial_heap
           eq_refl).
Defined.

(** X14.  The diagnostics of [parseExpression].  A diagnostic it returns
    carries the line number of the call and is one of four: INVALID_TOKEN
    expecting "a number literal" about a token of the line without a digit,
    INVALID_TOKEN expecting "an operation token" about a token of the line
    without any of the four characters, INCOMPLETE_EXPRESSION with
    [undefined] as its token, or INCOMPLETE_EXPRESSION with the empty token
    when the line has one. *)
Theorem diagnostic_catalogue (tokens : list string) (r : ParseResult)
  (lineNumber : nat) (h : Heap) :
  parseExpression tokens lineNumber h = (Normal (Some r), h) ->
  isNode r = false ->
  diagnostic_shape tokens lineNumber r.
Proof.
  intros Hp Hr.
  apply (parseExpression_diagnostic_shape tokens r lineNumber h); assumption.
Qed.

Lemma diagnostic_catalogue_witness :
  diagnostic_shape ["x"; "+"; "1"] 4
    (CompilerError COMPILER_ERRORS.INVALID_TOKEN "a number literal"
       (Some "x") 4).
Proof.
  exact (diagnostic_catalogue ["x"; "+"; "1"] _ 4 initial_heap eq_refl eq_refl).
Defined.

(** * Further properties of the lexer and the driver *)

(** X15.  No token of the lexer has a white-space character, whatever the
    line is. *)
Theorem lexer_tokens_without_space (line : string) :
  forallb (fun t => negb (has_char is_space t)) (lexer line) = true.
Proof.
  apply forallb_forall. intros t Ht. apply negb_true_iff.
  unfold lexer, split in Ht. destruct line as [|c s].
  - destruct Ht as [<-|[]]. reflexivity.
  - assert (H := split_loop_no_space (String c s) 0 "" eq_refl).
    rewrite Forall_forall in H. apply H. exact Ht.
Qed.

(** X16.  The tokens [compile] gives the parser for a line.  For a line
    that is empty or all white space they are the one empty token;
    otherwise there is at least one token, and every token has a character
    and no white space. *)
Theorem tokens_of_a_line (line : string) :
  if all_space line then lexer (trim line) = [""]
  else lexer (trim line) <> []
       /\ forallb clean_token (lexer (trim line)) = true.
Proof.
  assert (H := lexer_trim_tokens line). destruct (all_space line).
  - exact H.
  - destruct H as [Hclean Hno]. split; [|exact Hclean].
    intros E. rewrite E in Hno. discriminate.
Qed.

(** X17.  The lexer undoes a join with single spaces: for one token or more,
    each with a character and without white space, the tokens of the line
    that joins them with single spaces are those tokens. *)
Theorem lexer_concat (tokens : list string) :
  tokens <> [] ->
  forallb clean_token tokens = true ->
  lexer (String.concat " " tokens) = tokens.
Proof.
  intros Hne Hall. destruct tokens as [|t ts]; [contradiction|].
  assert (Ht : clean_token t = true).
  { cbn [forallb] in Hall. apply andb_true_iff in Hall. apply Hall. }
  destruct (clean_token_head _ Ht) as (_ & c & t0 & Et & _).
  unfold lexer, split.
  assert (Hs : exists c' s', String.concat " " (t :: ts) = String c' s').
  { subst t. destruct ts; cbn [String.concat String.append];
      eexists; eexists; reflexivity. }
  destruct Hs as (c' & s' & Hs). rewrite Hs, <- Hs.
  rewrite (split_loop_concat ts t "" Hall).
  rewrite rev_string_twice, append_empty. reflexivity.
Qed.

Lemma lexer_concat_witness :
  lexer "1 + 2 * 3" = ["1"; "+"; "2"; "*"; "3"].
Proof.
  refine (lexer_concat ["1"; "+"; "2"; "*"; "3"] _ eq_refl).
  discriminate.
Defined.

(** X18.  The diagnostics of [compile].  A diagnostic at index [i] of the
    array [compile] gives comes from line [i] of the document, which is not
    blank; it carries the line number [i + 1] and is about the tokens of
    that line alone, in one of the shapes of [parseExpression]; the tokens
    have no empty token, so its INCOMPLETE_EXPRESSION diagnostics always
    have [undefined] as their token. *)
Theorem compile_diagnostics (file : string) (h : Heap)
  (stack : list (option ParseResult)) (i : nat) (o : ParseResult) :
  compile file h = (Normal stack, h) ->
  nth_error stack i = Some (Some o) ->
  isNode o = false ->
  exists line,
    nth_error (split_char "010" file) i = Some line
    /\ all_space line = false
    /\ forallb clean_token (lexer (trim line)) = true
    /\ diagnostic_shape (lexer (trim line)) (i + 1) o.
Proof.
  intros Hc Hnth Ho. unfold compile in Hc.
  destruct (map_from_compile_line (split_char "010" file) 0 h)
    as (stack' & Hs & Hlen & Hlines).
  rewrite Hs in Hc. inversion Hc; subst stack'.
  destruct (nth_error (split_char "010" file) i) as [line|] eqn:El.
  - exists line. split; [reflexivity|].
    destruct (Hlines i line El) as (o' & Ho' & Hn').
    rewrite Hnth in Hn'. inversion Hn'; subst o'. cbn [Nat.add] in Ho'.
    assert (Hblank : all_space line = false).
    { destruct (compile_line_cases line i h) as (r & Hr & Hcase).
      rewrite Ho' in Hr. inversion Hr; subst r.
      destruct (all_space line); [|reflexivity].
      subst o. discriminate. }
    split; [exact Hblank|].
    assert (Htok := lexer_trim_tokens line). rewrite Hblank in Htok.
    split; [apply Htok|].
    apply (parseExpression_diagnostic_shape _ _ _ h); [exact Ho'|exact Ho].
  - exfalso. apply nth_error_None in El. rewrite <- Hlen in El.
    apply nth_error_None in El. rewrite Hnth in El. discriminate.
Qed.

(** Line 7 of the sample document, "+ 1". *)
Lemma compile_diagnostics_witness :
  exists line,
    nth_error (split_char "010" sample_document) 6 = Some line
    /\ all_space line = false
    /\ forallb clean_token (lexer (trim line)) = true
    /\ diagnostic_shape (lexer (trim line)) 7
         (CompilerError COMPILER_ERRORS.INCOMPLETE_EXPRESSION
            "a number literal" None 7).
Proof.
  refine (compile_diagnostics sample_document initial_heap _ 6
            (CompilerError COMPILER_ERRORS.INCOMPLETE_EXPRESSION
               "a number literal" None 7) _ _ eq_refl).
  - vm_compute. reflexivity.
  - reflexivity.
Defined.

(** X19.  Documents compose.  Compiling the document that is [a], a newline
    and [b] gives the results of [a] followed by the results of the lines
    of [b], numbered on from the lines of [a]. *)
Theorem compile_append (a b : string) (h : Heap) :
  exists sa sb,
    compile a h = (Normal sa, h)
    /\ map_from compile_line (List.length (split_char "010" a))
         (split_char "010" b) h
       = (Normal sb, h)
    /\ List.length sa = List.length (split_char "010" a)
    /\ compile (a ++ String "010" b) h = (Normal (sa ++ sb), h).
Proof.
  destruct (map_from_compile_line (split_char "010" a) 0 h)
    as (sa & Ha & Hla & _).
  destruct (map_from_compile_line (split_char "010" b)
              (List.length (split_char "010" a)) h) as (sb & Hb & _ & _).
  exists sa, sb. split; [exact Ha|]. split; [exact Hb|].
  split; [exact Hla|].
  unfold compile, split_char. rewrite split_on_app.
  apply map_from_app_compile_line; [exact Ha|exact Hb].
Qed.

(** X20.  The lines of a document, joined by newlines, are the document:
    the split into lines loses no character. *)
Theorem concat_split_char (file : string) :
  String.concat (String "010" "") (split_char "010" file) = file.
Proof.
  unfold split_char. rewrite concat_split_on. reflexivity.
Qed.
